(** * KTX 1.0 texture loader ([src/engine/assets/ktx_file.py])

    A shallow embedding of [KTXFile.open], [KTXFile.__init__],
    [KTXFile.header_target] and [KTXFile.header_format], with the
    properties of the decoder stated and proved over it.

    Conventions of the embedding:
    - a [bytes] object is a [list byte]; Python integers are [Z];
    - a [raise] is an [Err] of the [result] monad; the constructor of
      [KtxError] records which [raise] of the source it stands for;
    - the loop of [__init__] threads its local variables and the two
      buffers it grows ([self.data], [self.mipmaps]) through a [loop_state];
    - the host byte order (format ["=I"] of [struct]) is little-endian. *)

From Stdlib Require Import ZArith Lia.
From Stdlib Require Import Strings.String Strings.Byte.
From stdpp Require Import base numbers option list gmap.

Local Open Scope Z_scope.

(** ** Errors *)

Module Errors.

(** The exceptions the decoder raises, one constructor per [raise] site. *)
Inductive KtxError : Set :=
  | TruncatedFile             (* IOError, open: length < sizeof(KtxHeader) *)
  | InvalidMagic              (* IOError, open: header.id != Ktx10HeaderData *)
  | UnsupportedPixelFormat    (* ValueError, header_format: not is_compressed *)
  | UnknownCompressionFormat  (* ValueError, header_format: fmt is None *)
  | UnsupportedTextureLayout  (* NotImplementedError, __init__ *)
  | TruncatedMipData.         (* struct.error, unpack_from in __init__ *)

Inductive result (A : Type) : Type :=
  | Ok (a : A)
  | Err (e : KtxError).

Arguments Ok {A} a.
Arguments Err {A} e.

#[global] Instance result_ret : MRet result := fun _ a => Ok a.
#[global] Instance result_bind : MBind result := fun _ _ f m =>
  match m with
  | Ok a => f a
  | Err e => Err e
  end.

Definition is_ok {A} (r : result A) : bool :=
  match r with Ok _ => true | Err _ => false end.

#[global] Instance KtxError_eq_dec : EqDecision KtxError.
Proof. solve_decision. Defined.

End Errors.
Export Errors.

(** ** Bytes and the 32-bit reads *)

#[global] Instance byte_eq_dec : EqDecision byte := Byte.byte_eq_dec.
#[global] Instance byte_inhabited : Inhabited byte := populate x00%byte.

Definition byte_to_Z (b : byte) : Z := Z.of_N (Byte.to_N b).

(** A [c_uint32] / ["=I"] value from its four bytes, least significant first. *)
Definition u32_of_bytes (b0 b1 b2 b3 : byte) : Z :=
  Z.lor (byte_to_Z b0)
    (Z.lor (Z.shiftl (byte_to_Z b1) 8)
       (Z.lor (Z.shiftl (byte_to_Z b2) 16) (Z.shiftl (byte_to_Z b3) 24))).

(** [data[a:b]] for [0 <= a]: Python clips the slice to the buffer. *)
Definition slice (data : list byte) (a b : Z) : list byte :=
  take (Z.to_nat (b - a)) (drop (Z.to_nat a) data).

(** [data[a::]] for [0 <= a]. *)
Definition slice_from (data : list byte) (a : Z) : list byte :=
  drop (Z.to_nat a) data.

(** [struct.unpack_from("=I", data, offset)[0]]: raises [struct.error]
    unless four bytes are present at [offset]. *)
Definition unpack_from_I (data : list byte) (offset : Z) : result Z :=
  match slice data offset (offset + 4) with
  | [b0; b1; b2; b3] => Ok (u32_of_bytes b0 b1 b2 b3)
  | _ => Err TruncatedMipData
  end.

(** ** Vulkan enumerants used by the loader *)

Inductive VkImageType : Set :=
  | IMAGE_TYPE_1D
  | IMAGE_TYPE_2D
  | IMAGE_TYPE_3D.

Inductive VkFormat : Set :=
  | FORMAT_BC1_RGB_UNORM_BLOCK
  | FORMAT_BC1_RGB_SRGB_BLOCK
  | FORMAT_BC1_RGBA_UNORM_BLOCK
  | FORMAT_BC1_RGBA_SRGB_BLOCK
  | FORMAT_BC2_UNORM_BLOCK
  | FORMAT_BC2_SRGB_BLOCK
  | FORMAT_BC3_UNORM_BLOCK
  | FORMAT_BC3_SRGB_BLOCK
  | FORMAT_BC4_UNORM_BLOCK
  | FORMAT_BC4_SNORM_BLOCK
  | FORMAT_BC5_UNORM_BLOCK
  | FORMAT_BC5_SNORM_BLOCK
  | FORMAT_BC6H_UFLOAT_BLOCK
  | FORMAT_BC6H_SFLOAT_BLOCK
  | FORMAT_BC7_UNORM_BLOCK
  | FORMAT_BC7_SRGB_BLOCK.

#[global] Instance VkFormat_eq_dec : EqDecision VkFormat.
Proof. solve_decision. Defined.

(** A value of [GL_TO_VK_FORMATS]: either one format (an [int]) or a
    [(linear, sRGB)] tuple. *)
Inductive FormatEntry : Set :=
  | Single (fmt : VkFormat)
  | Pair (linear srgb : VkFormat).

(** [GL_TO_VK_FORMATS] *)
Definition GL_TO_VK_FORMATS : gmap Z FormatEntry :=
  list_to_map [
    (0x83F0, Pair FORMAT_BC1_RGB_UNORM_BLOCK FORMAT_BC1_RGB_SRGB_BLOCK);
    (0x83F1, Pair FORMAT_BC1_RGBA_UNORM_BLOCK FORMAT_BC1_RGBA_SRGB_BLOCK);
    (0x83F2, Pair FORMAT_BC2_UNORM_BLOCK FORMAT_BC2_SRGB_BLOCK);
    (0x83F3, Pair FORMAT_BC3_UNORM_BLOCK FORMAT_BC3_SRGB_BLOCK);
    (0x8DBB, Single FORMAT_BC4_UNORM_BLOCK);
    (0x8DBC, Single FORMAT_BC4_SNORM_BLOCK);
    (0x8DBD, Single FORMAT_BC5_UNORM_BLOCK);
    (0x8DBE, Single FORMAT_BC5_SNORM_BLOCK);
    (0x8E8F, Single FORMAT_BC6H_UFLOAT_BLOCK);
    (0x8E8E, Single FORMAT_BC6H_SFLOAT_BLOCK);
    (0x8E8C, Single FORMAT_BC7_UNORM_BLOCK);
    (0x8E8D, Single FORMAT_BC7_SRGB_BLOCK)
  ].

(** ** The header *)

(** [Ktx10HeaderData] *)
Definition Ktx10HeaderData : list byte :=
  [xab; x4b; x54; x58; x20; x31; x31; xbb; x0d; x0a; x1a; x0a]%byte.

(** [class KtxHeader(Structure)] *)
Record KtxHeader : Type := {
  id : list byte;
  endianness : Z;
  gl_type : Z;
  gl_type_size : Z;
  gl_format : Z;
  gl_internal_format : Z;
  gl_base_internal_format : Z;
  pixel_width : Z;
  pixel_height : Z;
  pixel_depth : Z;
  number_of_array_elements : Z;
  number_of_faces : Z;
  number_of_mipmap_levels : Z;
  bytes_of_key_value_data : Z;
}.

(** [sizeof(KtxHeader)] *)
Definition sizeof_KtxHeader : Z := 64.

(** The [c_uint32] field stored at byte [off] of the header image. *)
Definition field_u32 (data : list byte) (off : nat) : Z :=
  u32_of_bytes (data !!! off) (data !!! (off + 1)%nat)
               (data !!! (off + 2)%nat) (data !!! (off + 3)%nat).

(** Modelled from the spec: [bytes_to_cstruct] of [engine/assets/__init__.py]
    is not among the sources; the header is decoded field by field in the
    fixed order and at the byte offsets of the binary layout table (identity
    at 0, then thirteen 4-byte unsigned integers from offset 12 to 60), in
    the byte order of the host. *)
Definition bytes_to_cstruct (data : list byte) : KtxHeader :=
  {| id := take 12 data;
     endianness := field_u32 data 12;
     gl_type := field_u32 data 16;
     gl_type_size := field_u32 data 20;
     gl_format := field_u32 data 24;
     gl_internal_format := field_u32 data 28;
     gl_base_internal_format := field_u32 data 32;
     pixel_width := field_u32 data 36;
     pixel_height := field_u32 data 40;
     pixel_depth := field_u32 data 44;
     number_of_array_elements := field_u32 data 48;
     number_of_faces := field_u32 data 52;
     number_of_mipmap_levels := field_u32 data 56;
     bytes_of_key_value_data := field_u32 data 60 |}.

(** ** The decoded texture *)

(** [MipmapData = namedtuple('MipmapData', ('offset', 'size', 'width', 'height'))];
    the fields are read as [Mip.offset], [Mip.size], [Mip.width], [Mip.height]. *)
Module Mip.
Record MipmapData : Type := {
  offset : Z;
  size : Z;
  width : Z;
  height : Z;
}.
End Mip.

(** The attributes of a [KTXFile] object. *)
Record KTXFile : Type := {
  file_name : string;
  width : Z;
  height : Z;
  depth : Z;
  mips_level : Z;
  array_element : Z;
  faces : Z;
  target : VkImageType;
  format : VkFormat;
  data : list byte;
  mipmaps : list Mip.MipmapData;
}.

(** ** [KTXFile.header_target] *)

Definition header_target (header : KtxHeader) : VkImageType :=
  if pixel_height header =? 0 then IMAGE_TYPE_1D
  else if pixel_depth header >? 0 then IMAGE_TYPE_3D
  else IMAGE_TYPE_2D.

(** ** [KTXFile.header_format] *)

Definition is_compressed (h : KtxHeader) : bool :=
  (gl_type h =? 0) && (gl_type_size h =? 1) && (gl_format h =? 0).

(** [formats if isinstance(formats, int) else formats[0]], on
    [GL_TO_VK_FORMATS.get(key, (None, None))]. *)
Definition select_format (formats : option FormatEntry) : option VkFormat :=
  match formats with
  | Some (Single fmt) => Some fmt
  | Some (Pair linear _) => Some linear
  | None => None
  end.

Definition header_format (header : KtxHeader) : result VkFormat :=
  let h := header in
  if negb (is_compressed h) then Err UnsupportedPixelFormat
  else
    let formats := GL_TO_VK_FORMATS !! gl_internal_format h in
    match select_format formats with
    | None => Err UnknownCompressionFormat
    | Some fmt => Ok fmt
    end.

(** ** [KTXFile.__init__] *)

(** The variables the loading loop updates. *)
Record loop_state : Type := {
  data_offset : Z;
  local_offset : Z;
  mip_extent_width : Z;
  mip_extent_height : Z;
  self_data : list byte;
  self_mipmaps : list Mip.MipmapData;
}.

(** One iteration of [for i in range(self.mips_level)]. *)
Definition load_mip (src : list byte) (s : loop_state) : result loop_state :=
  mipmap_size ← unpack_from_I src (data_offset s);
  let data_offset1 := data_offset s + 4 in
  mret {|
    self_data := self_data s ++ slice src data_offset1 (data_offset1 + mipmap_size);
    self_mipmaps := self_mipmaps s ++
      [ {| Mip.offset := local_offset s; Mip.size := mipmap_size;
           Mip.width := mip_extent_width s;
           Mip.height := mip_extent_height s |} ];
    mip_extent_width := mip_extent_width s / 2;
    mip_extent_height := mip_extent_height s / 2;
    data_offset := data_offset1 + mipmap_size;
    local_offset := local_offset s + mipmap_size |}.

Fixpoint load_mips (n : nat) (src : list byte) (s : loop_state) : result loop_state :=
  match n with
  | O => mret s
  | S n' => s' ← load_mip src s; load_mips n' src s'
  end.

(** The loop variables on entry: [data_offset = local_offset = 0],
    [mip_extent_width, mip_extent_height = self.width, self.height],
    [self.data = bytearray()], [self.mipmaps = []]. *)
Definition loop_entry (self_width self_height : Z) : loop_state :=
  {| data_offset := 0; local_offset := 0;
     mip_extent_width := self_width; mip_extent_height := self_height;
     self_data := []; self_mipmaps := [] |}.

(** [KTXFile(fname, header, data)]; the [data] argument is [src] here, the
    [data] attribute being the buffer that is built. *)
Definition KTXFile_init (fname : string) (header : KtxHeader) (src : list byte)
  : result KTXFile :=
  let self_width := pixel_width header in
  let self_height := Z.max (pixel_height header) 1 in
  let self_depth := Z.max (pixel_depth header) 1 in
  let self_mips_level := Z.max (number_of_mipmap_levels header) 1 in
  let self_array_element := Z.max (number_of_array_elements header) 1 in
  let self_faces := Z.max (number_of_faces header) 1 in
  let self_target := header_target header in
  self_format ← header_format header;
  if (self_array_element >? 1) || (self_faces >? 1)
  then Err UnsupportedTextureLayout
  else
    s ← load_mips (Z.to_nat self_mips_level) src
          (loop_entry self_width self_height);
    mret {| file_name := fname;
            width := self_width; height := self_height;
            depth := self_depth; mips_level := self_mips_level;
            array_element := self_array_element; faces := self_faces;
            target := self_target; format := self_format;
            data := self_data s; mipmaps := self_mipmaps s |}.

(** ** [KTXFile.open], on the bytes read from the file *)

Definition KTXFile_open (path : string) (contents : list byte) : result KTXFile :=
  let length := Z.of_nat (List.length contents) in
  if length <? sizeof_KtxHeader then Err TruncatedFile
  else
    let header := bytes_to_cstruct contents in
    if decide (id header ≠ Ktx10HeaderData) then Err InvalidMagic
    else
      let offset := sizeof_KtxHeader + bytes_of_key_value_data header in
      KTXFile_init path header (slice_from contents offset).

(** ** Quantities the properties are stated with *)

(** The sum of the [size] fields of a list of mip records. *)
Definition total_size (ms : list Mip.MipmapData) : Z :=
  foldr (λ m acc, Mip.size m + acc) 0 ms.

(** Contiguous packing of the records built so far: the running
    [local_offset] is the sum of their sizes and every record starts
    where the records before it end. *)
Definition packed (s : loop_state) : Prop :=
  local_offset s = total_size (self_mipmaps s) ∧
  ∀ (i : nat) m, self_mipmaps s !! i = Some m →
    Mip.offset m = total_size (take i (self_mipmaps s)).

(** Level [i] records the base extents halved [i] times, and the running
    extents are those of the next level. *)
Definition halved (w0 h0 : Z) (s : loop_state) : Prop :=
  mip_extent_width s = w0 / 2 ^ Z.of_nat (length (self_mipmaps s)) ∧
  mip_extent_height s = h0 / 2 ^ Z.of_nat (length (self_mipmaps s)) ∧
  ∀ (i : nat) m, self_mipmaps s !! i = Some m →
    Mip.width m = w0 / 2 ^ Z.of_nat i ∧ Mip.height m = h0 / 2 ^ Z.of_nat i.

(** ** Test fixtures *)

Module Fixtures.
Local Open Scope byte_scope.

(** A 64-byte header image: the magic, endianness 0x04030201, the
    compressed triplet [(gl_type, 1, 0)], the internal format
    [fmt_hi * 256 + fmt_lo], base internal format 0x1903, and the
    remaining fields as single low bytes. *)
Definition header_image (gl_type fmt_lo fmt_hi w h d arr fcs mips kv : byte)
  : list byte :=
  [ xab; x4b; x54; x58; x20; x31; x31; xbb; x0d; x0a; x1a; x0a;
    x01; x02; x03; x04;
    gl_type; x00; x00; x00;
    x01; x00; x00; x00;
    x00; x00; x00; x00;
    fmt_lo; fmt_hi; x00; x00;
    x03; x19; x00; x00;
    w; x00; x00; x00;
    h; x00; x00; x00;
    d; x00; x00; x00;
    arr; x00; x00; x00;
    fcs; x00; x00; x00;
    mips; x00; x00; x00;
    kv; x00; x00; x00 ].

(** BC4 unorm, 4x4, two mip levels, no key-value data, followed by
    [8][8 bytes][4][4 bytes]. *)
Definition two_level_file : list byte :=
  header_image x00 xbb x8d x04 x04 x00 x00 x01 x02 x00 ++
  [ x08; x00; x00; x00;  x10; x11; x12; x13; x14; x15; x16; x17;
    x04; x00; x00; x00;  x20; x21; x22; x23 ].

(** The same file cut after 6 of the 8 payload bytes of level 0. *)
Definition two_level_file_cut : list byte := take 74 two_level_file.

(** BC4 unorm, 4x4, a single mip level announcing 8 payload bytes of
    which only 6 are present. *)
Definition one_level_file_cut : list byte :=
  header_image x00 xbb x8d x04 x04 x00 x00 x01 x01 x00 ++
  [ x08; x00; x00; x00;  x10; x11; x12; x13; x14; x15 ].

(** A file whose first twelve bytes are not the magic, cut to 20 bytes. *)
Definition short_bad_magic_file : list byte :=
  [ x00; x4b; x54; x58; x20; x31; x31; xbb; x0d; x0a; x1a; x0a;
    x01; x02; x03; x04; x00; x00; x00; x00 ].

(** Two files that differ only in their two bytes of key-value data. *)
Definition kv_file (k0 k1 : byte) : list byte :=
  header_image x00 xf0 x83 x08 x08 x00 x00 x01 x01 x02 ++ [k0; k1] ++
  [ x08; x00; x00; x00;  x10; x11; x12; x13; x14; x15; x16; x17 ].

(** A 1x1 BC1 texture with three (empty) mip levels. *)
Definition tiny_three_levels : list byte :=
  header_image x00 xf0 x83 x01 x01 x00 x00 x01 x03 x00 ++
  [ x00; x00; x00; x00;  x00; x00; x00; x00;  x00; x00; x00; x00 ].

(** A BC1 texture of width 0 with two mip levels. *)
Definition zero_width_file : list byte :=
  header_image x00 xf0 x83 x00 x04 x00 x00 x01 x02 x00 ++
  [ x02; x00; x00; x00;  x10; x11;  x01; x00; x00; x00;  x20 ].

(** The two-level file with its first byte overwritten. *)
Definition bad_magic_file : list byte := <[0%nat := x00]> two_level_file.

(** What [open] builds from [two_level_file]. *)
Definition two_level_texture (fname : string) : KTXFile :=
  {| file_name := fname; width := 4; height := 4; depth := 1;
     mips_level := 2; array_element := 1; faces := 1;
     target := IMAGE_TYPE_2D; format := FORMAT_BC4_UNORM_BLOCK;
     data := [ x10; x11; x12; x13; x14; x15; x16; x17; x20; x21; x22; x23 ];
     mipmaps := [ {| Mip.offset := 0; Mip.size := 8;
                     Mip.width := 4; Mip.height := 4 |};
                  {| Mip.offset := 8; Mip.size := 4;
                     Mip.width := 2; Mip.height := 2 |} ] |}.

(** What [open] builds from [one_level_file_cut]. *)
Definition one_level_cut_texture (fname : string) : KTXFile :=
  {| file_name := fname; width := 4; height := 4; depth := 1;
     mips_level := 1; array_element := 1; faces := 1;
     target := IMAGE_TYPE_2D; format := FORMAT_BC4_UNORM_BLOCK;
     data := [ x10; x11; x12; x13; x14; x15 ];
     mipmaps := [ {| Mip.offset := 0; Mip.size := 8;
                     Mip.width := 4; Mip.height := 4 |} ] |}.

(** What [open] builds from [tiny_three_levels]. *)
Definition tiny_level0 : Mip.MipmapData :=
  {| Mip.offset := 0; Mip.size := 0; Mip.width := 1; Mip.height := 1 |}.

Definition tiny_level1 : Mip.MipmapData :=
  {| Mip.offset := 0; Mip.size := 0; Mip.width := 0; Mip.height := 0 |}.

Definition tiny_texture (fname : string) : KTXFile :=
  {| file_name := fname; width := 1; height := 1; depth := 1;
     mips_level := 3; array_element := 1; faces := 1;
     target := IMAGE_TYPE_2D; format := FORMAT_BC1_RGB_UNORM_BLOCK;
     data := [];
     mipmaps := [ tiny_level0; tiny_level1; tiny_level1 ] |}.

(** What [open] builds from [zero_width_file]. *)
Definition zero_width_texture (fname : string) : KTXFile :=
  {| file_name := fname; width := 0; height := 4; depth := 1;
     mips_level := 2; array_element := 1; faces := 1;
     target := IMAGE_TYPE_2D; format := FORMAT_BC1_RGB_UNORM_BLOCK;
     data := [ x10; x11; x20 ];
     mipmaps := [ {| Mip.offset := 0; Mip.size := 2;
                     Mip.width := 0; Mip.height := 4 |};
                  {| Mip.offset := 2; Mip.size := 1;
                     Mip.width := 0; Mip.height := 2 |} ] |}.

(** Header records.  [bc1_header] is a compressed BC1 texture; the
    others change the fields named. *)
Definition bc1_header (w h d arr fcs mips : Z) : KtxHeader :=
  {| id := Ktx10HeaderData; endianness := 0x04030201;
     gl_type := 0; gl_type_size := 1; gl_format := 0;
     gl_internal_format := 0x83F0; gl_base_internal_format := 0x1907;
     pixel_width := w; pixel_height := h; pixel_depth := d;
     number_of_array_elements := arr; number_of_faces := fcs;
     number_of_mipmap_levels := mips; bytes_of_key_value_data := 0 |}.

(** An uncompressed RGBA8 texture ([GL_UNSIGNED_BYTE], [GL_RGBA],
    [GL_RGBA8]) with the given array-element and face counts. *)
Definition rgba8_header (arr fcs : Z) : KtxHeader :=
  {| id := Ktx10HeaderData; endianness := 0x04030201;
     gl_type := 0x1401; gl_type_size := 1; gl_format := 0x1908;
     gl_internal_format := 0x8058; gl_base_internal_format := 0x1908;
     pixel_width := 4; pixel_height := 4; pixel_depth := 0;
     number_of_array_elements := arr; number_of_faces := fcs;
     number_of_mipmap_levels := 1; bytes_of_key_value_data := 0 |}.

End Fixtures.

(** ** The mip stream, written out

    The layout the loading loop reads: per level a 4-byte length prefix in
    host order, then the payload.  The loader has no writer; these
    definitions give the properties of the loop something to decode. *)

Definition byte_of_Z (z : Z) : byte :=
  default x00%byte (Byte.of_N (Z.to_N z)).

(** [struct.pack("=I", n)] *)
Definition pack_I (n : Z) : list byte :=
  [ byte_of_Z (Z.land n 255);
    byte_of_Z (Z.land (Z.shiftr n 8) 255);
    byte_of_Z (Z.land (Z.shiftr n 16) 255);
    byte_of_Z (Z.land (Z.shiftr n 24) 255) ].

Definition mip_chunk (payload : list byte) : list byte :=
  pack_I (Z.of_nat (length payload)) ++ payload.

Definition mip_stream (payloads : list (list byte)) : list byte :=
  concat (mip_chunk <$> payloads).

(** The records the loop is to build for these payloads, the first one
    starting at [off] with extents [w] x [h]. *)
Fixpoint stream_records (off w h : Z) (payloads : list (list byte))
  : list Mip.MipmapData :=
  match payloads with
  | [] => []
  | p :: rest =>
      {| Mip.offset := off; Mip.size := Z.of_nat (length p);
         Mip.width := w; Mip.height := h |}
      :: stream_records (off + Z.of_nat (length p)) (w / 2) (h / 2) rest
  end.

(** The keys of [GL_TO_VK_FORMATS], in the order of the source. *)
Definition supported_internal_formats : list Z :=
  [ 0x83F0; 0x83F1; 0x83F2; 0x83F3; 0x8DBB; 0x8DBC; 0x8DBD; 0x8DBE;
    0x8E8F; 0x8E8E; 0x8E8C; 0x8E8D ].

(** What each key of [GL_TO_VK_FORMATS] resolves to: the entry itself, or
    the first member of a tuple. *)
Definition resolved_formats : list (Z * VkFormat) :=
  [ (0x83F0, FORMAT_BC1_RGB_UNORM_BLOCK);
    (0x83F1, FORMAT_BC1_RGBA_UNORM_BLOCK);
    (0x83F2, FORMAT_BC2_UNORM_BLOCK);
    (0x83F3, FORMAT_BC3_UNORM_BLOCK);
    (0x8DBB, FORMAT_BC4_UNORM_BLOCK);
    (0x8DBC, FORMAT_BC4_SNORM_BLOCK);
    (0x8DBD, FORMAT_BC5_UNORM_BLOCK);
    (0x8DBE, FORMAT_BC5_SNORM_BLOCK);
    (0x8E8F, FORMAT_BC6H_UFLOAT_BLOCK);
    (0x8E8E, FORMAT_BC6H_SFLOAT_BLOCK);
    (0x8E8C, FORMAT_BC7_UNORM_BLOCK);
    (0x8E8D, FORMAT_BC7_SRGB_BLOCK) ].

(** ** More sample inputs *)

Module Samples.
Local Open Scope byte_scope.

(** A compressed 8x8 header with the given internal format, one face and
    [mips] levels. *)
Definition compressed_header (internal_format mips : Z) : KtxHeader :=
  {| id := Ktx10HeaderData; endianness := 0x04030201;
     gl_type := 0; gl_type_size := 1; gl_format := 0;
     gl_internal_format := internal_format;
     gl_base_internal_format := 0x1908;
     pixel_width := 8; pixel_height := 8; pixel_depth := 0;
     number_of_array_elements := 0; number_of_faces := 1;
     number_of_mipmap_levels := mips; bytes_of_key_value_data := 0 |}.

(** Two payloads, of two bytes and of one byte. *)
Definition payloads : list (list byte) := [ [x10; x11]; [x20] ].

(** What the constructor builds from [compressed_header 0x83F0 2] and the
    written [payloads]. *)
Definition payloads_texture (fname : string) : KTXFile :=
  {| file_name := fname; width := 8; height := 8; depth := 1;
     mips_level := 2; array_element := 1; faces := 1;
     target := IMAGE_TYPE_2D; format := FORMAT_BC1_RGB_UNORM_BLOCK;
     data := [ x10; x11; x20 ];
     mipmaps := [ {| Mip.offset := 0; Mip.size := 2;
                     Mip.width := 8; Mip.height := 8 |};
                  {| Mip.offset := 2; Mip.size := 1;
                     Mip.width := 4; Mip.height := 4 |} ] |}.

(** A BC1 file whose header announces 200 bytes of key-value data that
    the file does not hold. *)
Definition kv_past_end_file : list byte :=
  Fixtures.header_image x00 xf0 x83 x08 x08 x00 x00 x01 x01 xc8 ++
  [ x08; x00; x00; x00;  x10; x11; x12; x13; x14; x15; x16; x17 ].

(** A compressed cube map (two faces) in ETC2, a format the table does
    not list. *)
Definition etc2_cube_header : KtxHeader :=
  {| id := Ktx10HeaderData; endianness := 0x04030201;
     gl_type := 0; gl_type_size := 1; gl_format := 0;
     gl_internal_format := 0x9274; gl_base_internal_format := 0x1907;
     pixel_width := 8; pixel_height := 8; pixel_depth := 0;
     number_of_array_elements := 0; number_of_faces := 2;
     number_of_mipmap_levels := 1; bytes_of_key_value_data := 0 |}.

(** One mip level with an empty payload. *)
Definition empty_level : list byte := [ x00; x00; x00; x00 ].

(** What the constructor builds from a BC1 header of extents
    [w] x [h] x [d] with one level and [empty_level], classified as
    [image_type]. *)
Definition one_level_texture (fname : string) (w h d : Z)
    (image_type : VkImageType) : KTXFile :=
  {| file_name := fname; width := w; height := h; depth := d;
     mips_level := 1; array_element := 1; faces := 1;
     target := image_type; format := FORMAT_BC1_RGB_UNORM_BLOCK;
     data := [];
     mipmaps := [ {| Mip.offset := 0; Mip.size := 0;
                     Mip.width := w; Mip.height := h |} ] |}.

End Samples.

(** * Compute dispatch ([src/engine/compute_runner.py])

    [ComputeRunner] keeps the set of compute objects it has started and
    records one command buffer per run.  What its collaborators do is not
    in this file: the functions of [hvk] and [CommandsRunner] are bodies
    given by a parameter, and the callback is an argument of [run], as in
    the source.  Each of them is an arbitrary computation over the runner
    and the world around it: it may raise any exception, replace or delete
    [self.engine], add to or remove from [self.running], or run the runner
    again.  Collaborator calls that returned are kept, in order, in a
    trace. *)

Module ComputeRunner.
Local Open Scope Z_scope.

(** The exceptions the runner tells apart; a collaborator may raise any
    of them, [RuntimeError] included. *)
Inductive Exn : Set :=
  | RuntimeError      (* also: raise RuntimeError, line 22 *)
  | AttributeError    (* also: self.engine after free() *)
  | LookupError       (* also: compute_commands[...] / compute_pipelines[...] *)
  | ValueError        (* also: x, y, z = group *)
  | OtherError (name : string).

(** [engine.api], [engine.device] *)
Record Engine : Set := { api : Z; device : Z }.

(** A compute component; [oid] is the identity of the object, which is
    what membership in [self.running] compares. *)
Record DataCompute : Set := {
  oid : nat;
  command_index : Z;
  pipeline : Z;
  pipeline_layout : Z;
  descriptor_sets : list Z;
}.

(** [data_scene.compute_commands] and [data_scene.compute_pipelines],
    as partial lookups. *)
Record DataScene : Type := {
  compute_commands : Z → option Z;
  compute_pipelines : Z → option Z;
}.

Section Runner.
Variable Command : Type.
(** Everything outside the runner that a collaborator can read and change. *)
Variable World : Type.

(** The collaborator calls of [run], with their arguments. *)
Inductive Call : Type :=
  | command_buffer_begin_info
  | begin_command_buffer (api cmd : Z)
  | bind_pipeline (api cmd pipeline : Z)
  | bind_descriptor_sets (api cmd layout : Z) (sets : list Z)
  | run_device (commands : list Command) (api cmd : Z)
  | dispatch (api cmd x y z : Z)
  | end_command_buffer (api cmd : Z)
  | run_app (commands : list Command)
  | the_callback.

(** The runner ([self.engine], [self.running]), the collaborator calls
    that have returned, and the world. *)
Record St : Type := {
  engine : option Engine;
  running : gset nat;
  trace : list Call;
  world : World;
}.

Inductive Outcome (A : Type) : Type :=
  | Returned (a : A)
  | Raised (e : Exn).
Arguments Returned {A} a.
Arguments Raised {A} e.

Definition M (A : Type) : Type := St → St * Outcome A.

Definition ret {A} (a : A) : M A := λ st, (st, Returned a).

Definition bind {A B} (m : M A) (f : A → M B) : M B := λ st,
  match m st with
  | (st', Returned a) => f a st'
  | (st', Raised e) => (st', Raised e)
  end.

Definition raise {A} (e : Exn) : M A := λ st, (st, Raised e).

#[local] Instance M_ret : MRet M := @ret.
#[local] Instance M_bind : MBind M := λ A B f m, bind m f.

(** The bodies of the functions of [hvk] and [CommandsRunner]. *)
Variable effect : Call → M unit.

Definition log (c : Call) (st : St) : St :=
  {| engine := engine st; running := running st;
     trace := trace st ++ [c]; world := world st |}.

(** Run the body [f] of the call [c]; when it returns, the call is added
    to the trace; what it raises is raised. *)
Definition perform (c : Call) (f : M unit) : M unit := λ st,
  match f st with
  | (st', Returned _) => (log c st', Returned tt)
  | (st', Raised e) => (st', Raised e)
  end.

Definition call (c : Call) : M unit := perform c (effect c).

(** [ComputeRunner.ctx] *)
Definition ctx : M Engine := λ st,
  match engine st with
  | Some e => (st, Returned e)
  | None => (st, Raised AttributeError)
  end.

Definition is_running (o : nat) : M bool := λ st,
  (st, Returned (bool_decide (o ∈ running st))).

(** The state after [o] was added to the running set. *)
Definition mark (o : nat) (st : St) : St :=
  {| engine := engine st; running := {[ o ]} ∪ running st;
     trace := trace st; world := world st |}.

(** [self.running.add(data_compute)] *)
Definition running_add (o : nat) : M unit := λ st, (mark o st, Returned tt).

Definition subscript (table : Z → option Z) (key : Z) : M Z :=
  match table key with
  | Some v => ret v
  | None => raise LookupError
  end.

(** [x, y, z = group] *)
Definition unpack3 (group : list Z) : M (Z * Z * Z) :=
  match group with
  | [x; y; z] => ret (x, y, z)
  | _ => raise ValueError
  end.

(** [ComputeRunner.__init__] *)
Definition init (engine : Engine) (w : World) : St :=
  {| engine := Some engine; running := ∅; trace := []; world := w |}.

(** [ComputeRunner.free]: [del self.engine] *)
Definition free : M unit := λ st,
  match engine st with
  | Some _ => ({| engine := None; running := running st;
                  trace := trace st; world := world st |}, Returned tt)
  | None => (st, Raised AttributeError)
  end.

(** [ComputeRunner.run] *)
Definition run (data_scene : DataScene) (data_compute : DataCompute)
    (group : list Z) (sync : bool) (after before : option (list Command))
    (callback : M unit) : M unit :=
  already ← is_running (oid data_compute);
  if already : bool then raise RuntimeError
  else
    e ← ctx;
    let api := api e in
    cmd ← subscript (compute_commands data_scene) (command_index data_compute);
    pipeline ← subscript (compute_pipelines data_scene) (pipeline data_compute);
    xyz ← unpack3 group;
    let '(x, y, z) := xyz in
    let before := default [] before in
    let after := default [] after in
    call command_buffer_begin_info;;
    call (begin_command_buffer api cmd);;
    call (bind_pipeline api cmd pipeline);;
    call (bind_descriptor_sets api cmd (pipeline_layout data_compute)
            (descriptor_sets data_compute));;
    call (run_device before api cmd);;
    call (dispatch api cmd x y z);;
    call (run_device after api cmd);;
    call (end_command_buffer api cmd);;
    running_add (oid data_compute);;
    call (run_app before);;
    call (run_app after);;
    perform the_callback callback.

(** The arguments of one [run]. *)
Record RunArgs : Type := {
  arg_scene : DataScene;
  arg_compute : DataCompute;
  arg_group : list Z;
  arg_sync : bool;
  arg_after : option (list Command);
  arg_before : option (list Command);
  arg_callback : M unit;
}.

Definition run_with (a : RunArgs) : M unit :=
  run (arg_scene a) (arg_compute a) (arg_group a) (arg_sync a)
      (arg_after a) (arg_before a) (arg_callback a).

(** A sequence of runs, whatever each of them does. *)
Definition run_all (runs : list RunArgs) (st : St) : St :=
  foldl (λ st a, (run_with a st).1) st runs.

(** ** What the properties of the runner are stated with *)

(** The eight calls that record the command buffer, and the three that
    follow the addition to the running set. *)
Definition recording_calls (data_compute : DataCompute) (e : Engine)
    (cmd pipeline x y z : Z) (before after : option (list Command))
  : list Call :=
  [ command_buffer_begin_info;
    begin_command_buffer (api e) cmd;
    bind_pipeline (api e) cmd pipeline;
    bind_descriptor_sets (api e) cmd (pipeline_layout data_compute)
      (descriptor_sets data_compute);
    run_device (default [] before) (api e) cmd;
    dispatch (api e) cmd x y z;
    run_device (default [] after) (api e) cmd;
    end_command_buffer (api e) cmd ].

Definition closing_calls (before after : option (list Command)) : list Call :=
  [ run_app (default [] before); run_app (default [] after); the_callback ].

(** Calls with their bodies, performed one after the other. *)
Fixpoint do_steps (steps : list (Call * M unit)) : M unit :=
  match steps with
  | [] => ret tt
  | (c, f) :: rest => bind (perform c f) (λ _, do_steps rest)
  end.

Definition with_effect (cs : list Call) : list (Call * M unit) :=
  (λ c, (c, effect c)) <$> cs.

(** The closing calls with their bodies: the last one is the callback. *)
Definition closing_steps (before after : option (list Command))
    (callback : M unit) : list (Call * M unit) :=
  [ (run_app (default [] before), effect (run_app (default [] before)));
    (run_app (default [] after), effect (run_app (default [] after)));
    (the_callback, callback) ].

(** A computation that keeps the runner usable: it does not replace or
    delete the engine and removes nothing from the running set. *)
Definition keeps (st st' : St) : Prop :=
  engine st' = engine st ∧ (running st ⊆ running st').

(** A computation that leaves the runner alone: engine, running set and
    trace are as before (so it does not run the runner either); only the
    world may change. *)
Definition untouched (st st' : St) : Prop :=
  engine st' = engine st ∧ running st' = running st ∧ trace st' = trace st.

(** The runner is as in [st] but for the calls [cs] that have returned
    since. *)
Definition after_calls (st : St) (cs : list Call) (st' : St) : Prop :=
  engine st' = engine st ∧ running st' = running st ∧
  trace st' = trace st ++ cs.

End Runner.

Arguments Returned {A} a.
Arguments Raised {A} e.
Arguments command_buffer_begin_info {Command}.
Arguments begin_command_buffer {Command} api cmd.
Arguments bind_pipeline {Command} api cmd pipeline.
Arguments bind_descriptor_sets {Command} api cmd layout sets.
Arguments run_device {Command} commands api cmd.
Arguments dispatch {Command} api cmd x y z.
Arguments end_command_buffer {Command} api cmd.
Arguments run_app {Command} commands.
Arguments the_callback {Command}.
Arguments engine {Command World} s.
Arguments running {Command World} s.
Arguments trace {Command World} s.
Arguments world {Command World} s.
Arguments ret {Command World A} a _.
Arguments bind {Command World A B} m f _.
Arguments raise {Command World A} e _.
Arguments log {Command World} c st.
Arguments perform {Command World} c f _.
Arguments call {Command World} effect c _.
Arguments mark {Command World} o st.
Arguments running_add {Command World} o _.
Arguments init {Command World} engine w.
Arguments free {Command World} _.
Arguments run {Command World} effect data_scene data_compute group sync
  after before callback _.
Arguments run_with {Command World} effect a _.
Arguments run_all {Command World} effect runs st.
Arguments recording_calls {Command} data_compute e cmd pipeline x y z
  before after.
Arguments closing_calls {Command} before after.
Arguments do_steps {Command World} steps _.
Arguments with_effect {Command World} effect cs.
Arguments closing_steps {Command World} effect before after callback.
Arguments keeps {Command World} st st'.
Arguments untouched {Command World} st st'.
Arguments after_calls {Command World} st cs st'.
Arguments arg_scene {Command World} r.
Arguments arg_compute {Command World} r.
Arguments arg_group {Command World} r.
Arguments arg_sync {Command World} r.
Arguments arg_after {Command World} r.
Arguments arg_before {Command World} r.
Arguments arg_callback {Command World} r.

(** ** Sample runs *)

(** A scene with one command buffer and one pipeline, and a compute
    object that uses them. *)
Definition sample_scene : DataScene :=
  {| compute_commands := λ i, if i =? 0 then Some 100 else None;
     compute_pipelines := λ i, if i =? 0 then Some 200 else None |}.

Definition sample_compute : DataCompute :=
  {| oid := 7; command_index := 0; pipeline := 0;
     pipeline_layout := 300; descriptor_sets := [400] |}.

Definition sample_engine : Engine := {| api := 1; device := 2 |}.

(** Collaborators that return and touch nothing. *)
Definition quiet : Call nat → M nat unit unit := λ _, ret tt.

(** Collaborators whose [dispatch] raises [RuntimeError]. *)
Definition dispatch_fails : Call nat → M nat unit unit := λ c,
  match c with
  | dispatch _ _ _ _ _ => raise RuntimeError
  | _ => ret tt
  end.

(** Callbacks: one that returns, one that raises, one that is the
    runner's own [free], one that takes the sample object out of the
    running set. *)
Definition callback_returns : M nat unit unit := ret tt.

Definition callback_raises : M nat unit unit := raise (OtherError "callback").

Definition callback_frees : M nat unit unit := free.

Definition callback_discards : M nat unit unit := λ st,
  ({| engine := engine st; running := running st ∖ {[ 7%nat ]};
      trace := trace st; world := world st |}, Returned tt).

Definition sample_args (callback : M nat unit unit) : RunArgs nat unit :=
  {| arg_scene := sample_scene; arg_compute := sample_compute;
     arg_group := [8; 8; 1]; arg_sync := true;
     arg_after := None; arg_before := Some [5%nat];
     arg_callback := callback |}.

(** A new runner, the calls of the sample run, and runners after it. *)
Definition fresh_runner : St nat unit := init sample_engine tt.

Definition sample_calls : list (Call nat) :=
  recording_calls sample_compute sample_engine 100 200 8 8 1
    (Some [5%nat]) None ++
  closing_calls (Some [5%nat]) None.

Definition after_sample_run : St nat unit :=
  {| engine := Some sample_engine; running := {[ 7%nat ]};
     trace := sample_calls; world := tt |}.

Definition after_failed_callback : St nat unit :=
  {| engine := Some sample_engine; running := {[ 7%nat ]};
     trace := take 10 sample_calls; world := tt |}.

(** A runner after [free]. *)
Definition freed_runner : St nat unit :=
  {| engine := None; running := ∅; trace := []; world := tt |}.

End ComputeRunner.

(** * Properties *)

(** ** The result monad *)

Lemma bind_Ok_inv {A B} (m : result A) (f : A → result B) (b : B) :
  m ≫= f = Ok b → ∃ a, m = Ok a ∧ f a = Ok b.
Proof. destruct m as [a|e]; [intros H; by exists a | discriminate]. Qed.

Lemma bind_Err_inv {A B} (m : result A) (f : A → result B) (e : KtxError) :
  m ≫= f = Err e → m = Err e ∨ ∃ a, m = Ok a ∧ f a = Err e.
Proof. destruct m as [a|e']; [intros H; right; by exists a | intros [= ->]; by left]. Qed.

(** ** Slices and 32-bit reads *)

Lemma byte_to_Z_nonneg b : 0 ≤ byte_to_Z b.
Proof. unfold byte_to_Z. lia. Qed.

Lemma u32_of_bytes_nonneg b0 b1 b2 b3 : 0 ≤ u32_of_bytes b0 b1 b2 b3.
Proof.
  unfold u32_of_bytes.
  repeat (apply Z.lor_nonneg; split);
    try apply Z.shiftl_nonneg; apply byte_to_Z_nonneg.
Qed.

Lemma length_slice src a b :
  0 ≤ a → Z.of_nat (length (slice src a b)) =
          Z.max 0 (Z.min (b - a) (Z.of_nat (length src) - a)).
Proof. intros Ha. unfold slice. rewrite length_take, length_drop. lia. Qed.

Lemma length_slice_full src a n :
  0 ≤ a → 0 ≤ n → a + n ≤ Z.of_nat (length src) →
  Z.of_nat (length (slice src a (a + n))) = n.
Proof. intros. rewrite length_slice by done. lia. Qed.

Lemma length_slice_short src a n :
  0 ≤ a ≤ Z.of_nat (length src) → Z.of_nat (length src) < a + n →
  Z.of_nat (length (slice src a (a + n))) < n.
Proof. intros. rewrite length_slice by lia. lia. Qed.

(** [unpack_from] succeeds exactly when the four bytes are in the buffer. *)
Lemma unpack_from_I_Ok_inv src off v :
  0 ≤ off → unpack_from_I src off = Ok v →
  0 ≤ v ∧ off + 4 ≤ Z.of_nat (length src).
Proof.
  intros Hoff. unfold unpack_from_I.
  destruct (slice src off (off + 4)) as [|b0 [|b1 [|b2 [|b3 [|]]]]] eqn:E;
    try discriminate.
  intros [= <-]. split; [apply u32_of_bytes_nonneg|].
  apply (f_equal length) in E. apply (f_equal Z.of_nat) in E.
  rewrite length_slice in E by done. simpl in E. lia.
Qed.

Lemma unpack_from_I_short src off :
  0 ≤ off → Z.of_nat (length src) < off + 4 →
  unpack_from_I src off = Err TruncatedMipData.
Proof.
  intros Hoff Hlen. destruct (unpack_from_I src off) as [v|e] eqn:E.
  - apply unpack_from_I_Ok_inv in E; [lia | done].
  - revert E. unfold unpack_from_I. by repeat case_match.
Qed.

Lemma unpack_from_I_enough src off :
  0 ≤ off → off + 4 ≤ Z.of_nat (length src) →
  ∃ v, unpack_from_I src off = Ok v.
Proof.
  intros Hoff Hlen. unfold unpack_from_I.
  pose proof (length_slice src off (off + 4) Hoff) as E.
  destruct (slice src off (off + 4)) as [|b0 [|b1 [|b2 [|b3 [|]]]]];
    simpl in E; try lia.
  eauto.
Qed.

(** ** The loading loop *)

Lemma total_size_app ms1 ms2 :
  total_size (ms1 ++ ms2) = total_size ms1 + total_size ms2.
Proof. induction ms1 as [|m ms1 IH]; simpl; [done | rewrite IH; lia]. Qed.

Lemma total_size_snoc ms m : total_size (ms ++ [m]) = total_size ms + Mip.size m.
Proof. rewrite total_size_app. simpl. lia. Qed.

Lemma halve_again w (k : nat) : w / 2 ^ Z.of_nat k / 2 = w / 2 ^ Z.of_nat (S k).
Proof.
  rewrite Nat2Z.inj_succ, Z.pow_succ_r by lia.
  rewrite Z.div_div by lia. f_equal. lia.
Qed.

(** What one successful iteration does to the loop variables. *)
Lemma load_mip_Ok_inv src s s' :
  load_mip src s = Ok s' →
  ∃ mipmap_size,
    unpack_from_I src (data_offset s) = Ok mipmap_size ∧
    data_offset s' = data_offset s + 4 + mipmap_size ∧
    local_offset s' = local_offset s + mipmap_size ∧
    mip_extent_width s' = mip_extent_width s / 2 ∧
    mip_extent_height s' = mip_extent_height s / 2 ∧
    self_data s' = self_data s ++
      slice src (data_offset s + 4) (data_offset s + 4 + mipmap_size) ∧
    self_mipmaps s' = self_mipmaps s ++
      [ {| Mip.offset := local_offset s; Mip.size := mipmap_size;
           Mip.width := mip_extent_width s;
           Mip.height := mip_extent_height s |} ].
Proof.
  unfold load_mip. intros H.
  apply bind_Ok_inv in H as (sz & Hsz & [= <-]).
  exists sz. by repeat split.
Qed.

Ltac step_inv H :=
  let sz := fresh "sz" in
  let Hsz := fresh "Hsz" in
  let Hdo := fresh "Hdo" in
  let Hlo := fresh "Hlo" in
  let Hw := fresh "Hw" in
  let Hh := fresh "Hh" in
  let Hd := fresh "Hd" in
  let Hm := fresh "Hm" in
  apply load_mip_Ok_inv in H as (sz & Hsz & Hdo & Hlo & Hw & Hh & Hd & Hm).

(** The only exception the loop can raise is the [struct.error] of
    [unpack_from]. *)
Lemma load_mips_Err_inv n src s e :
  load_mips n src s = Err e → e = TruncatedMipData.
Proof.
  revert s. induction n as [|n IH]; intros s; simpl; [discriminate|].
  intros H. apply bind_Err_inv in H as [H | (s1 & _ & H)]; [|by eapply IH].
  unfold load_mip in H. apply bind_Err_inv in H as [H | (? & _ & ?)]; [|done].
  unfold unpack_from_I in H. by repeat case_match; simplify_eq.
Qed.

Lemma load_mips_length n src s s' :
  load_mips n src s = Ok s' →
  length (self_mipmaps s') = (length (self_mipmaps s) + n)%nat.
Proof.
  revert s. induction n as [|n IH]; intros s; simpl.
  - intros [= <-]. lia.
  - intros H. apply bind_Ok_inv in H as (s1 & H1 & H).
    apply IH in H. step_inv H1. rewrite H, Hm, length_app. simpl. lia.
Qed.

Lemma load_mip_packed src s s' :
  packed s → load_mip src s = Ok s' → packed s'.
Proof.
  intros [Hsum Hoff] H. step_inv H. split.
  - rewrite Hm, total_size_snoc, Hlo, Hsum. done.
  - intros i m. rewrite Hm. intros [[Hi Hi']|[-> <-]]%lookup_snoc_Some.
    + rewrite take_app_le by lia. by apply Hoff.
    + rewrite take_app_length. done.
Qed.

Lemma load_mips_packed n src s s' :
  packed s → load_mips n src s = Ok s' → packed s'.
Proof.
  revert s. induction n as [|n IH]; intros s Hs; simpl.
  - by intros [= <-].
  - intros H. apply bind_Ok_inv in H as (s1 & H1 & H).
    eapply IH; [|done]. by eapply load_mip_packed.
Qed.

Lemma loop_entry_packed w h : packed (loop_entry w h).
Proof. split; [done|]. intros i m. simpl. by rewrite lookup_nil. Qed.

Lemma load_mip_halved w0 h0 src s s' :
  halved w0 h0 s → load_mip src s = Ok s' → halved w0 h0 s'.
Proof.
  intros (Hcw & Hch & Hrec) H. step_inv H. unfold halved.
  rewrite Hm, length_app, Nat.add_1_r. split; [|split].
  - rewrite Hw, Hcw. apply halve_again.
  - rewrite Hh, Hch. apply halve_again.
  - intros i m [[_ Hi]|[-> <-]]%lookup_snoc_Some; [by apply Hrec | done].
Qed.

Lemma load_mips_halved w0 h0 n src s s' :
  halved w0 h0 s → load_mips n src s = Ok s' → halved w0 h0 s'.
Proof.
  revert s. induction n as [|n IH]; intros s Hs; simpl.
  - by intros [= <-].
  - intros H. apply bind_Ok_inv in H as (s1 & H1 & H).
    eapply IH; [|done]. by eapply load_mip_halved.
Qed.

Lemma loop_entry_halved w h : halved w h (loop_entry w h).
Proof.
  unfold halved. simpl. rewrite !Z.div_1_r. split; [done | split; [done|]].
  intros i m. by rewrite lookup_nil.
Qed.

Lemma load_mips_add k j src s :
  load_mips (k + j) src s = load_mips k src s ≫= load_mips j src.
Proof.
  revert s. induction k as [|k IH]; intros s; simpl; [done|].
  destruct (load_mip src s) as [s1|e]; simpl; [apply IH | done].
Qed.

(** The read cursor never moves backwards. *)
Lemma load_mips_data_offset_mono n src s s' :
  load_mips n src s = Ok s' → 0 ≤ data_offset s →
  data_offset s ≤ data_offset s'.
Proof.
  revert s. induction n as [|n IH]; intros s; simpl.
  - intros [= <-]. lia.
  - intros H Hs. apply bind_Ok_inv in H as (s1 & H1 & H). step_inv H1.
    apply unpack_from_I_Ok_inv in Hsz as [? ?]; [|done].
    apply IH in H; lia.
Qed.

(** When the cursor ends inside the source, every payload was copied in
    full, so [self.data] grew by exactly the announced sizes. *)
Lemma load_mips_data_length n src s s' :
  load_mips n src s = Ok s' → 0 ≤ data_offset s →
  data_offset s' ≤ Z.of_nat (length src) →
  Z.of_nat (length (self_data s')) - local_offset s' =
  Z.of_nat (length (self_data s)) - local_offset s.
Proof.
  revert s. induction n as [|n IH]; intros s; simpl.
  - by intros [= <-].
  - intros H Hs Hend. apply bind_Ok_inv in H as (s1 & H1 & H). step_inv H1.
    apply unpack_from_I_Ok_inv in Hsz as [? ?]; [|done].
    pose proof (load_mips_data_offset_mono _ _ _ _ H ltac:(lia)).
    rewrite (IH _ H) by lia.
    rewrite Hd, length_app, Nat2Z.inj_add, length_slice_full by lia. lia.
Qed.

(** A length prefix that does not fit at the cursor reached after [k]
    iterations stops the loop, whenever a further iteration is due.  A
    payload announced beyond the end of the source leaves the cursor past
    the end, so this covers a short payload of any level but the last. *)
Lemma load_mips_prefix_past_end n k src s sk :
  (k < n)%nat → load_mips k src s = Ok sk → 0 ≤ data_offset s →
  Z.of_nat (length src) < data_offset sk + 4 →
  load_mips n src s = Err TruncatedMipData.
Proof.
  intros Hk Hsk Hs Hshort.
  replace n with (k + S (n - S k))%nat by lia.
  rewrite load_mips_add, Hsk. simpl. unfold load_mip.
  rewrite unpack_from_I_short; [done | | done].
  apply load_mips_data_offset_mono in Hsk; lia.
Qed.

(** ** [KTXFile.__init__] and [KTXFile.open] *)

Lemma KTXFile_init_Ok_inv fname h src t :
  KTXFile_init fname h src = Ok t →
  ∃ fmt s,
    header_format h = Ok fmt ∧
    number_of_array_elements h ≤ 1 ∧ number_of_faces h ≤ 1 ∧
    load_mips (Z.to_nat (Z.max (number_of_mipmap_levels h) 1)) src
      (loop_entry (pixel_width h) (Z.max (pixel_height h) 1)) = Ok s ∧
    t = {| file_name := fname;
           width := pixel_width h;
           height := Z.max (pixel_height h) 1;
           depth := Z.max (pixel_depth h) 1;
           mips_level := Z.max (number_of_mipmap_levels h) 1;
           array_element := Z.max (number_of_array_elements h) 1;
           faces := Z.max (number_of_faces h) 1;
           target := header_target h;
           format := fmt;
           data := self_data s;
           mipmaps := self_mipmaps s |}.
Proof.
  unfold KTXFile_init. intros H.
  apply bind_Ok_inv in H as (fmt & Hfmt & H).
  destruct (_ || _) eqn:Hlayout; [discriminate|].
  apply bind_Ok_inv in H as (s & Hs & [= <-]).
  apply orb_false_iff in Hlayout as [Ha Hf].
  exists fmt, s. repeat split; try done; lia.
Qed.

(** A successful [open] is a successful construction from the decoded
    header and the bytes after the key-value block. *)
Lemma KTXFile_open_Ok_inv path contents t :
  KTXFile_open path contents = Ok t →
  sizeof_KtxHeader ≤ Z.of_nat (length contents) ∧
  id (bytes_to_cstruct contents) = Ktx10HeaderData ∧
  KTXFile_init path (bytes_to_cstruct contents)
    (slice_from contents
       (sizeof_KtxHeader + bytes_of_key_value_data (bytes_to_cstruct contents)))
  = Ok t.
Proof.
  unfold KTXFile_open. destruct (_ <? _) eqn:Hlen; [discriminate|].
  case_decide as Hid; [discriminate|]. intros H.
  repeat split; [lia | | done].
  by destruct (decide (id (bytes_to_cstruct contents) = Ktx10HeaderData)).
Qed.

(** Whatever the header, the layout check comes after the format
    resolution and before any byte of the payload is read. *)
Lemma KTXFile_init_layout fname h src fmt :
  header_format h = Ok fmt →
  1 < number_of_array_elements h ∨ 1 < number_of_faces h →
  KTXFile_init fname h src = Err UnsupportedTextureLayout.
Proof.
  intros Hfmt Hl. unfold KTXFile_init. rewrite Hfmt. simpl.
  destruct (_ || _) eqn:E; [done|].
  apply orb_false_iff in E as [? ?]. lia.
Qed.

Lemma KTXFile_init_format_error fname h src e :
  header_format h = Err e → KTXFile_init fname h src = Err e.
Proof. intros H. unfold KTXFile_init. by rewrite H. Qed.

(** ** The format resolver *)

Lemma header_format_uncompressed h :
  is_compressed h = false → header_format h = Err UnsupportedPixelFormat.
Proof. intros H. unfold header_format. by rewrite H. Qed.

Lemma header_format_unknown h :
  is_compressed h = true → GL_TO_VK_FORMATS !! gl_internal_format h = None →
  header_format h = Err UnknownCompressionFormat.
Proof. intros H1 H2. unfold header_format. by rewrite H1, H2. Qed.

Lemma header_format_single h fmt :
  is_compressed h = true →
  GL_TO_VK_FORMATS !! gl_internal_format h = Some (Single fmt) →
  header_format h = Ok fmt.
Proof. intros H1 H2. unfold header_format. by rewrite H1, H2. Qed.

Lemma header_format_pair h linear srgb :
  is_compressed h = true →
  GL_TO_VK_FORMATS !! gl_internal_format h = Some (Pair linear srgb) →
  header_format h = Ok linear.
Proof. intros H1 H2. unfold header_format. by rewrite H1, H2. Qed.

Lemma GL_TO_VK_FORMATS_83F0 :
  GL_TO_VK_FORMATS !! 0x83F0 =
  Some (Pair FORMAT_BC1_RGB_UNORM_BLOCK FORMAT_BC1_RGB_SRGB_BLOCK).
Proof. reflexivity. Qed.

(** ** Files that agree outside the key-value block *)

Section Agree.
Variables l1 l2 : list byte.

Lemma take_agree (n : nat) :
  (∀ i : nat, (i < n)%nat → l1 !! i = l2 !! i) → take n l1 = take n l2.
Proof.
  intros H. apply list_eq. intros i. rewrite !lookup_take.
  case_decide; [by apply H | done].
Qed.

Lemma drop_agree (n : nat) :
  (∀ i : nat, (n ≤ i)%nat → l1 !! i = l2 !! i) → drop n l1 = drop n l2.
Proof.
  intros H. apply list_eq. intros i. rewrite !lookup_drop. apply H. lia.
Qed.

Hypothesis Hhead : ∀ i : nat, (i < 64)%nat → l1 !! i = l2 !! i.

Lemma field_u32_agree (off : nat) :
  (off + 3 < 64)%nat → field_u32 l1 off = field_u32 l2 off.
Proof.
  intros Hoff. unfold field_u32.
  rewrite !list_lookup_total_alt, !Hhead by lia. done.
Qed.

Lemma bytes_to_cstruct_agree : bytes_to_cstruct l1 = bytes_to_cstruct l2.
Proof.
  unfold bytes_to_cstruct.
  rewrite (take_agree 12) by (intros; apply Hhead; lia).
  rewrite !(field_u32_agree _) by lia. done.
Qed.
End Agree.

(** ** More on the loop: cursors and sizes *)

Lemma load_mips_cursor n src s s' :
  load_mips n src s = Ok s' →
  data_offset s' - local_offset s' =
  data_offset s - local_offset s + 4 * Z.of_nat n.
Proof.
  revert s. induction n as [|n IH]; intros s; simpl.
  - intros [= <-]. lia.
  - intros H. apply bind_Ok_inv in H as (s1 & H1 & H). step_inv H1.
    apply IH in H. lia.
Qed.

Lemma load_mips_sizes_nonneg n src s s' :
  load_mips n src s = Ok s' → 0 ≤ data_offset s →
  Forall (λ m, 0 ≤ Mip.size m) (self_mipmaps s) →
  Forall (λ m, 0 ≤ Mip.size m) (self_mipmaps s').
Proof.
  revert s. induction n as [|n IH]; intros s; simpl.
  - by intros [= <-].
  - intros H Hs Hall. apply bind_Ok_inv in H as (s1 & H1 & H). step_inv H1.
    apply unpack_from_I_Ok_inv in Hsz as [? ?]; [|done].
    apply (IH _ H); [lia|]. rewrite Hm. apply Forall_app. split; [done|].
    by apply Forall_singleton.
Qed.

Lemma total_size_nonneg ms :
  Forall (λ m, 0 ≤ Mip.size m) ms → 0 ≤ total_size ms.
Proof. induction 1; simpl; lia. Qed.

Lemma total_size_take_mono ms (i j : nat) :
  Forall (λ m, 0 ≤ Mip.size m) ms → (i ≤ j)%nat →
  total_size (take i ms) ≤ total_size (take j ms).
Proof.
  intros Hall Hij. replace j with (i + (j - i))%nat by lia.
  rewrite <- take_take_drop, total_size_app.
  pose proof (total_size_nonneg (take (j - i) (drop i ms))) as Hnn.
  assert (Forall (λ m, 0 ≤ Mip.size m) (take (j - i) (drop i ms))).
  { by apply Forall_take, Forall_drop. }
  specialize (Hnn ltac:(done)). lia.
Qed.

(** [self.data] never holds more bytes than the records announce. *)
Lemma load_mips_data_length_le n src s s' :
  load_mips n src s = Ok s' → 0 ≤ data_offset s →
  Z.of_nat (length (self_data s')) - local_offset s' ≤
  Z.of_nat (length (self_data s)) - local_offset s.
Proof.
  revert s. induction n as [|n IH]; intros s; simpl.
  - intros [= <-]. lia.
  - intros H Hs. apply bind_Ok_inv in H as (s1 & H1 & H). step_inv H1.
    apply unpack_from_I_Ok_inv in Hsz as [? ?]; [|done].
    apply IH in H; [|lia].
    rewrite Hd, length_app, Nat2Z.inj_add, length_slice in H by lia. lia.
Qed.

(** * The decoder's properties, claim by claim *)

(** ** Truncated mip data *)

(** A length prefix that cannot be read in full at any due iteration, or a
    payload of a level other than the last that runs past the end of the
    source, makes the constructor raise [struct.error]. *)
Lemma KTXFile_init_prefix_past_end fname h src fmt (k : nat) sk :
  header_format h = Ok fmt →
  number_of_array_elements h ≤ 1 → number_of_faces h ≤ 1 →
  Z.of_nat k < Z.max (number_of_mipmap_levels h) 1 →
  load_mips k src (loop_entry (pixel_width h) (Z.max (pixel_height h) 1))
    = Ok sk →
  Z.of_nat (length src) < data_offset sk + 4 →
  KTXFile_init fname h src = Err TruncatedMipData.
Proof.
  intros Hfmt Ha Hf Hk Hsk Hshort. unfold KTXFile_init. rewrite Hfmt. simpl.
  destruct (_ || _) eqn:E.
  { apply orb_true_iff in E as [?|?]; lia. }
  rewrite (load_mips_prefix_past_end _ k _ _ sk); [done | lia | done | done | done].
Qed.

(** The two-level scenario decodes to BC4 unorm with levels [(0, 8)] and
    [(8, 4)] over a 12-byte buffer. *)
Example open_two_level_file :
  KTXFile_open "bc4.ktx" Fixtures.two_level_file
  = Ok (Fixtures.two_level_texture "bc4.ktx").
Proof. vm_compute. reflexivity. Qed.

(** Cut after 6 of the 8 payload bytes of level 0, the same file is
    refused: the prefix of level 1 is read at offset 12 of a 10-byte slice. *)
Example open_two_level_file_cut :
  KTXFile_open "bc4.ktx" Fixtures.two_level_file_cut = Err TruncatedMipData.
Proof. vm_compute. reflexivity. Qed.

(** C1 (the code departs from the claim).  A payload announced beyond the
    end of the source should end the decode with [TruncatedMipData].  When
    the short payload belongs to the last level, [data[a:a+size]] is
    clipped silently and no further prefix is read: the single-level file
    that announces 8 payload bytes and carries 6 is opened without error. *)
Theorem truncated_last_payload_is_accepted :
  unpack_from_I (slice_from Fixtures.one_level_file_cut 64) 0 = Ok 8 ∧
  length (slice_from Fixtures.one_level_file_cut 68) = 6%nat ∧
  KTXFile_open "cut.ktx" Fixtures.one_level_file_cut
  = Ok (Fixtures.one_level_cut_texture "cut.ktx").
Proof. vm_compute. repeat split; reflexivity. Qed.

(** ** Texture arrays and cube maps *)

(** C2, counterexample.  An uncompressed header with two array elements,
    and one with two faces, are refused by the format resolver, which runs
    first: the error is [UnsupportedPixelFormat]. *)
Lemma layout_error_preceded_by_format_error :
  number_of_array_elements (Fixtures.rgba8_header 2 1) = 2 ∧
  KTXFile_init "rgba.ktx" (Fixtures.rgba8_header 2 1) []
    = Err UnsupportedPixelFormat ∧
  KTXFile_init "rgba.ktx" (Fixtures.rgba8_header 2 1) []
    ≠ Err UnsupportedTextureLayout ∧
  number_of_faces (Fixtures.rgba8_header 0 2) = 2 ∧
  KTXFile_init "rgba.ktx" (Fixtures.rgba8_header 0 2) []
    = Err UnsupportedPixelFormat ∧
  KTXFile_init "rgba.ktx" (Fixtures.rgba8_header 0 2) []
    ≠ Err UnsupportedTextureLayout.
Proof. vm_compute. repeat split; (reflexivity || discriminate). Qed.

(** C2, as amended.  For a header with [numberOfArrayElements = 2] or
    [numberOfFaces = 2], whatever its other fields and the payload: if the
    format resolver accepts it the decode fails with
    [UnsupportedTextureLayout]; if the resolver refuses it the decode
    fails with the resolver's error first, [UnsupportedPixelFormat] for a
    triplet other than (0, 1, 0) and [UnknownCompressionFormat] for a key
    the table does not hold. *)
Theorem array_and_cube_rejected fname h src :
  number_of_array_elements h = 2 ∨ number_of_faces h = 2 →
  (∀ fmt, header_format h = Ok fmt →
     KTXFile_init fname h src = Err UnsupportedTextureLayout) ∧
  (is_compressed h = false →
     KTXFile_init fname h src = Err UnsupportedPixelFormat) ∧
  (is_compressed h = true →
   GL_TO_VK_FORMATS !! gl_internal_format h = None →
     KTXFile_init fname h src = Err UnknownCompressionFormat).
Proof.
  intros Hl. split; [|split].
  - intros fmt Hfmt. apply (KTXFile_init_layout _ _ _ fmt); [done | lia].
  - intros Hc. by apply KTXFile_init_format_error, header_format_uncompressed.
  - intros Hc Hk. by apply KTXFile_init_format_error, header_format_unknown.
Qed.

Lemma array_and_cube_rejected_witness :
  KTXFile_init "array.ktx" (Fixtures.bc1_header 4 4 0 2 1 1) []
    = Err UnsupportedTextureLayout ∧
  KTXFile_init "cube.ktx" (Fixtures.bc1_header 4 4 0 0 2 1) []
    = Err UnsupportedTextureLayout ∧
  KTXFile_init "rgba.ktx" (Fixtures.rgba8_header 2 1) []
    = Err UnsupportedPixelFormat ∧
  KTXFile_init "etc2.ktx" Samples.etc2_cube_header []
    = Err UnknownCompressionFormat.
Proof.
  split; [|split; [|split]].
  - apply (proj1 (array_and_cube_rejected "array.ktx"
                    (Fixtures.bc1_header 4 4 0 2 1 1) []
                    (or_introl eq_refl)) FORMAT_BC1_RGB_UNORM_BLOCK).
    vm_compute. reflexivity.
  - apply (proj1 (array_and_cube_rejected "cube.ktx"
                    (Fixtures.bc1_header 4 4 0 0 2 1) []
                    (or_intror eq_refl)) FORMAT_BC1_RGB_UNORM_BLOCK).
    vm_compute. reflexivity.
  - apply (proj1 (proj2 (array_and_cube_rejected "rgba.ktx"
                           (Fixtures.rgba8_header 2 1) []
                           (or_introl eq_refl)))).
    reflexivity.
  - apply (proj2 (proj2 (array_and_cube_rejected "etc2.ktx"
                           Samples.etc2_cube_header []
                           (or_intror eq_refl)))).
    + reflexivity.
    + vm_compute. reflexivity.
Defined.

(** ** The magic *)

(** C3, counterexample.  A 20-byte buffer whose first twelve bytes are not
    the magic fails the length check, which comes first: the error is
    [TruncatedFile]. *)
Lemma short_bad_magic_is_truncated_file :
  take 12 Fixtures.short_bad_magic_file ≠ Ktx10HeaderData ∧
  KTXFile_open "short.ktx" Fixtures.short_bad_magic_file = Err TruncatedFile ∧
  KTXFile_open "short.ktx" Fixtures.short_bad_magic_file ≠ Err InvalidMagic.
Proof. vm_compute. repeat split; (reflexivity || discriminate). Qed.

(** C3, as amended.  Every buffer shorter than [sizeof(KtxHeader)] = 64
    bytes fails with [TruncatedFile], whatever its first bytes are; every
    buffer of at least 64 bytes whose first twelve bytes differ from the
    magic fails with [InvalidMagic], whatever the rest of its content is. *)
Theorem bad_magic_rejected path contents :
  (Z.of_nat (length contents) < sizeof_KtxHeader →
     KTXFile_open path contents = Err TruncatedFile) ∧
  (sizeof_KtxHeader ≤ Z.of_nat (length contents) →
   take 12 contents ≠ Ktx10HeaderData →
     KTXFile_open path contents = Err InvalidMagic).
Proof.
  unfold KTXFile_open. split.
  - intros Hlen. destruct (_ <? _) eqn:E; [done | lia].
  - intros Hlen Hid. destruct (_ <? _) eqn:E; [lia|].
    case_decide as Hne; [done|]. by destruct Hne.
Qed.

Lemma bad_magic_rejected_witness :
  KTXFile_open "short.ktx" Fixtures.short_bad_magic_file = Err TruncatedFile ∧
  KTXFile_open "bad.ktx" Fixtures.bad_magic_file = Err InvalidMagic.
Proof.
  split.
  - apply (proj1 (bad_magic_rejected "short.ktx" Fixtures.short_bad_magic_file)).
    vm_compute. reflexivity.
  - apply (proj2 (bad_magic_rejected "bad.ktx" Fixtures.bad_magic_file)).
    + vm_compute. discriminate.
    + vm_compute. discriminate.
Defined.

(** ** Packing of the mip levels *)

(** Every record starts where the records before it end. *)
Lemma mip_offsets_contiguous fname h src t :
  KTXFile_init fname h src = Ok t →
  ∀ (i : nat) m, mipmaps t !! i = Some m →
    Mip.offset m = total_size (take i (mipmaps t)).
Proof.
  intros (fmt & s & _ & _ & _ & Hs & ->)%KTXFile_init_Ok_inv. simpl.
  apply (load_mips_packed _ _ _ _ (loop_entry_packed _ _)) in Hs.
  apply Hs.
Qed.

(** The buffer never exceeds the announced sizes, and matches them when
    the source holds every prefix and every payload in full. *)
Lemma data_length_le fname h src t :
  KTXFile_init fname h src = Ok t →
  Z.of_nat (length (data t)) ≤ total_size (mipmaps t).
Proof.
  intros (fmt & s & _ & _ & _ & Hs & ->)%KTXFile_init_Ok_inv. simpl.
  pose proof (load_mips_packed _ _ _ _ (loop_entry_packed _ _) Hs) as [<- _].
  apply load_mips_data_length_le in Hs; simpl in *; lia.
Qed.

Lemma data_length_complete fname h src t :
  KTXFile_init fname h src = Ok t →
  4 * mips_level t + total_size (mipmaps t) ≤ Z.of_nat (length src) →
  Z.of_nat (length (data t)) = total_size (mipmaps t).
Proof.
  intros (fmt & s & _ & _ & _ & Hs & ->)%KTXFile_init_Ok_inv. simpl.
  pose proof (load_mips_packed _ _ _ _ (loop_entry_packed _ _) Hs) as [<- _].
  pose proof (load_mips_cursor _ _ _ _ Hs) as Hc. simpl in Hc.
  intros Hfit. apply load_mips_data_length in Hs; simpl in *; lia.
Qed.

(** C4 (the code departs from the claim).  The sizes of the records should
    add up to the length of the data buffer.  For the single-level file
    that announces 8 payload bytes and carries 6, [open] succeeds with one
    record of size 8 over a buffer of 6 bytes. *)
Theorem truncated_last_payload_breaks_packing :
  ∃ t, KTXFile_open "cut.ktx" Fixtures.one_level_file_cut = Ok t ∧
       total_size (mipmaps t) = 8 ∧
       Z.of_nat (length (data t)) = 6.
Proof.
  exists (Fixtures.one_level_cut_texture "cut.ktx").
  vm_compute. repeat split; reflexivity.
Qed.

(** ** Number and order of the mip levels *)

(** C5.  A successful decode has [mips_level = max(numberOfMipmapLevels, 1)]
    and exactly that many records; the record at index [i] is level [i]:
    it carries the base extents halved [i] times, and the offsets do not
    decrease along the list. *)
Theorem mip_count_and_order fname h src t :
  KTXFile_init fname h src = Ok t →
  mips_level t = Z.max (number_of_mipmap_levels h) 1 ∧
  Z.of_nat (length (mipmaps t)) = mips_level t ∧
  (∀ (i : nat) m, mipmaps t !! i = Some m →
     Mip.width m = width t / 2 ^ Z.of_nat i ∧
     Mip.height m = height t / 2 ^ Z.of_nat i) ∧
  (∀ (i j : nat) mi mj, (i ≤ j)%nat →
     mipmaps t !! i = Some mi → mipmaps t !! j = Some mj →
     Mip.offset mi ≤ Mip.offset mj).
Proof.
  intros Ht.
  pose proof (mip_offsets_contiguous _ _ _ _ Ht) as Hoff.
  apply KTXFile_init_Ok_inv in Ht as (fmt & s & _ & _ & _ & Hs & ->).
  simpl in *. split; [done|]. split; [|split].
  - rewrite (load_mips_length _ _ _ _ Hs). simpl. lia.
  - apply (load_mips_halved _ _ _ _ _ _ (loop_entry_halved _ _)) in Hs.
    apply Hs.
  - intros i j mi mj Hij Hi Hj.
    rewrite (Hoff _ _ Hi), (Hoff _ _ Hj).
    apply total_size_take_mono; [|done].
    apply (load_mips_sizes_nonneg _ _ _ _ Hs); [done | constructor].
Qed.

Lemma mip_count_and_order_witness :
  KTXFile_init "bc4.ktx" (bytes_to_cstruct Fixtures.two_level_file)
    (slice_from Fixtures.two_level_file 64)
    = Ok (Fixtures.two_level_texture "bc4.ktx") ∧
  mips_level (Fixtures.two_level_texture "bc4.ktx")
    = Z.max (number_of_mipmap_levels
               (bytes_to_cstruct Fixtures.two_level_file)) 1 ∧
  Z.of_nat (length (mipmaps (Fixtures.two_level_texture "bc4.ktx")))
    = mips_level (Fixtures.two_level_texture "bc4.ktx").
Proof.
  split; [vm_compute; reflexivity|].
  destruct (mip_count_and_order "bc4.ktx"
              (bytes_to_cstruct Fixtures.two_level_file)
              (slice_from Fixtures.two_level_file 64)
              (Fixtures.two_level_texture "bc4.ktx")) as (H1 & H2 & _).
  - vm_compute. reflexivity.
  - split; [exact H1 | exact H2].
Defined.

(** ** Extents of successive levels *)

(** C6.  In a successful decode, the record of every level [i > 0] has the
    width and the height of level [i - 1] halved by floor division; there
    is no clamp, so [1 // 2 = 0] is recorded as it is. *)
Theorem mip_extents_halve fname h src t :
  KTXFile_init fname h src = Ok t →
  ∀ (i : nat) prev m, (0 < i)%nat →
    mipmaps t !! (i - 1)%nat = Some prev → mipmaps t !! i = Some m →
    Mip.width m = Mip.width prev / 2 ∧ Mip.height m = Mip.height prev / 2.
Proof.
  intros (fmt & s & _ & _ & _ & Hs & ->)%KTXFile_init_Ok_inv. simpl.
  apply (load_mips_halved _ _ _ _ _ _ (loop_entry_halved _ _)) in Hs.
  destruct Hs as (_ & _ & Hrec).
  intros i prev m Hi Hprev Hm.
  apply Hrec in Hprev as [-> ->]. apply Hrec in Hm as [-> ->].
  replace i with (S (i - 1)) at 1 3 by lia.
  by rewrite !halve_again.
Qed.

Lemma mip_extents_halve_witness :
  KTXFile_init "tiny.ktx" (bytes_to_cstruct Fixtures.tiny_three_levels)
    (slice_from Fixtures.tiny_three_levels 64)
    = Ok (Fixtures.tiny_texture "tiny.ktx") ∧
  mipmaps (Fixtures.tiny_texture "tiny.ktx") !! 0%nat
    = Some Fixtures.tiny_level0 ∧
  mipmaps (Fixtures.tiny_texture "tiny.ktx") !! 1%nat
    = Some Fixtures.tiny_level1 ∧
  Mip.width Fixtures.tiny_level1 = Mip.width Fixtures.tiny_level0 / 2 ∧
  Mip.height Fixtures.tiny_level1 = Mip.height Fixtures.tiny_level0 / 2.
Proof.
  split; [vm_compute; reflexivity|].
  split; [reflexivity|]. split; [reflexivity|].
  apply (mip_extents_halve "tiny.ktx"
           (bytes_to_cstruct Fixtures.tiny_three_levels)
           (slice_from Fixtures.tiny_three_levels 64)
           (Fixtures.tiny_texture "tiny.ktx")) with (i := 1%nat).
  - vm_compute. reflexivity.
  - lia.
  - reflexivity.
  - reflexivity.
Defined.

(** In that texture the extents of level 1 are [1 // 2 = 0]. *)
Example tiny_level1_is_empty :
  Mip.width Fixtures.tiny_level1 = 0 ∧ Mip.height Fixtures.tiny_level1 = 0.
Proof. split; reflexivity. Qed.

(** ** Dimensionality *)

(** The constructor stores the classification of the header as read,
    next to the clamped extents. *)
Lemma KTXFile_init_target fname h src t :
  KTXFile_init fname h src = Ok t →
  target t = header_target h ∧
  height t = Z.max (pixel_height h) 1 ∧ depth t = Z.max (pixel_depth h) 1.
Proof. by intros (fmt & s & _ & _ & _ & _ & ->)%KTXFile_init_Ok_inv. Qed.

(** C7.  The classification reads the header fields as decoded: a
    [pixelHeight] of 0 gives 1D; otherwise a [pixelDepth] above 0 gives 3D;
    otherwise 2D.  The constructor stores that classification of the raw
    fields as the target of the texture, next to the height and the depth
    it has clamped to at least 1, which would classify every texture
    as 3D. *)
Theorem header_target_reads_raw_fields h :
  ( (pixel_height h = 0 → header_target h = IMAGE_TYPE_1D) ∧
    (pixel_height h ≠ 0 → 0 < pixel_depth h →
       header_target h = IMAGE_TYPE_3D) ∧
    (pixel_height h ≠ 0 → pixel_depth h ≤ 0 →
       header_target h = IMAGE_TYPE_2D) ) ∧
  ∀ fname src t,
    KTXFile_init fname h src = Ok t →
    height t = Z.max (pixel_height h) 1 ∧
    depth t = Z.max (pixel_depth h) 1 ∧
    (pixel_height h = 0 → target t = IMAGE_TYPE_1D) ∧
    (pixel_height h ≠ 0 → 0 < pixel_depth h → target t = IMAGE_TYPE_3D) ∧
    (pixel_height h ≠ 0 → pixel_depth h ≤ 0 → target t = IMAGE_TYPE_2D).
Proof.
  assert ((pixel_height h = 0 → header_target h = IMAGE_TYPE_1D) ∧
          (pixel_height h ≠ 0 → 0 < pixel_depth h →
             header_target h = IMAGE_TYPE_3D) ∧
          (pixel_height h ≠ 0 → pixel_depth h ≤ 0 →
             header_target h = IMAGE_TYPE_2D)) as Hcases.
  { unfold header_target. repeat split.
    - intros ->. done.
    - intros Hh Hd. destruct (Z.eqb_spec (pixel_height h) 0); [done|].
      destruct (pixel_depth h >? 0) eqn:E; [done | lia].
    - intros Hh Hd. destruct (Z.eqb_spec (pixel_height h) 0); [done|].
      destruct (pixel_depth h >? 0) eqn:E; [lia | done]. }
  split; [exact Hcases|].
  intros fname src t (fmt & s & _ & _ & _ & _ & ->)%KTXFile_init_Ok_inv.
  simpl. split; [done|]. split; [done|]. exact Hcases.
Qed.

Lemma header_target_reads_raw_fields_witness :
  ( KTXFile_init "line.ktx" (Fixtures.bc1_header 16 0 0 0 1 1)
      Samples.empty_level
      = Ok (Samples.one_level_texture "line.ktx" 16 1 1 IMAGE_TYPE_1D) ∧
    height (Samples.one_level_texture "line.ktx" 16 1 1 IMAGE_TYPE_1D) = 1 ∧
    target (Samples.one_level_texture "line.ktx" 16 1 1 IMAGE_TYPE_1D)
      = IMAGE_TYPE_1D ) ∧
  ( KTXFile_init "flat.ktx" (Fixtures.bc1_header 16 16 0 0 1 1)
      Samples.empty_level
      = Ok (Samples.one_level_texture "flat.ktx" 16 16 1 IMAGE_TYPE_2D) ∧
    depth (Samples.one_level_texture "flat.ktx" 16 16 1 IMAGE_TYPE_2D) = 1 ∧
    target (Samples.one_level_texture "flat.ktx" 16 16 1 IMAGE_TYPE_2D)
      = IMAGE_TYPE_2D ) ∧
  ( KTXFile_init "cube.ktx" (Fixtures.bc1_header 16 16 16 0 1 1)
      Samples.empty_level
      = Ok (Samples.one_level_texture "cube.ktx" 16 16 16 IMAGE_TYPE_3D) ∧
    target (Samples.one_level_texture "cube.ktx" 16 16 16 IMAGE_TYPE_3D)
      = IMAGE_TYPE_3D ).
Proof.
  split; [|split].
  - split; [vm_compute; reflexivity|].
    destruct (proj2 (header_target_reads_raw_fields
                       (Fixtures.bc1_header 16 0 0 0 1 1))
                "line.ktx"%string Samples.empty_level
                (Samples.one_level_texture "line.ktx" 16 1 1 IMAGE_TYPE_1D))
      as (Hh & _ & H1 & _).
    + vm_compute. reflexivity.
    + split; [exact Hh | apply H1; reflexivity].
  - split; [vm_compute; reflexivity|].
    destruct (proj2 (header_target_reads_raw_fields
                       (Fixtures.bc1_header 16 16 0 0 1 1))
                "flat.ktx"%string Samples.empty_level
                (Samples.one_level_texture "flat.ktx" 16 16 1 IMAGE_TYPE_2D))
      as (_ & Hd & _ & _ & H2).
    + vm_compute. reflexivity.
    + split; [exact Hd | apply H2; simpl; lia].
  - split; [vm_compute; reflexivity|].
    destruct (proj2 (header_target_reads_raw_fields
                       (Fixtures.bc1_header 16 16 16 0 1 1))
                "cube.ktx"%string Samples.empty_level
                (Samples.one_level_texture "cube.ktx" 16 16 16 IMAGE_TYPE_3D))
      as (_ & _ & _ & H3 & _).
    + vm_compute. reflexivity.
    + apply H3; simpl; lia.
Defined.

(** A 1D header keeps its classification although the stored height is
    the clamped 1. *)
Example one_dimensional_texture :
  ∃ t, KTXFile_init "line.ktx" (Fixtures.bc1_header 16 0 0 0 1 1)
         [x00; x00; x00; x00]%byte = Ok t ∧
       target t = IMAGE_TYPE_1D ∧ height t = 1 ∧ depth t = 1.
Proof. eexists. vm_compute. repeat split; reflexivity. Qed.

(** ** Linear and sRGB variants *)

(** C8.  For a header that passes the compressed-format check, an entry of
    the table that is a (linear, sRGB) pair resolves to its linear member;
    [glInternalFormat = 0x83F0] resolves to [FORMAT_BC1_RGB_UNORM_BLOCK],
    which is not the sRGB identifier. *)
Theorem header_format_selects_linear h :
  is_compressed h = true →
  (∀ linear srgb,
     GL_TO_VK_FORMATS !! gl_internal_format h = Some (Pair linear srgb) →
     header_format h = Ok linear) ∧
  (gl_internal_format h = 0x83F0 →
     header_format h = Ok FORMAT_BC1_RGB_UNORM_BLOCK ∧
     header_format h ≠ Ok FORMAT_BC1_RGB_SRGB_BLOCK).
Proof.
  intros Hc. split.
  - intros linear srgb. by apply header_format_pair.
  - intros Hkey.
    assert (header_format h = Ok FORMAT_BC1_RGB_UNORM_BLOCK) as ->; [|done].
    apply (header_format_pair _ _ FORMAT_BC1_RGB_SRGB_BLOCK); [done|].
    rewrite Hkey. apply GL_TO_VK_FORMATS_83F0.
Qed.

Lemma header_format_selects_linear_witness :
  is_compressed (Fixtures.bc1_header 4 4 0 0 1 1) = true ∧
  header_format (Fixtures.bc1_header 4 4 0 0 1 1)
    = Ok FORMAT_BC1_RGB_UNORM_BLOCK.
Proof.
  split; [reflexivity|].
  apply (header_format_selects_linear (Fixtures.bc1_header 4 4 0 0 1 1));
    reflexivity.
Defined.

(** ** The key-value block *)

(** C9.  Two files of the same length that agree on every byte outside
    the key-value block (the [bytesOfKeyValueData] bytes that follow the
    64-byte header) decode to the same texture, or fail with the same
    error. *)
Theorem open_ignores_key_value_data path (b1 b2 : list byte) :
  length b1 = length b2 →
  (∀ i : nat,
     Z.of_nat i < sizeof_KtxHeader ∨
     sizeof_KtxHeader + bytes_of_key_value_data (bytes_to_cstruct b1)
       ≤ Z.of_nat i →
     b1 !! i = b2 !! i) →
  KTXFile_open path b1 = KTXFile_open path b2.
Proof.
  intros Hlen Hagree.
  assert (bytes_to_cstruct b1 = bytes_to_cstruct b2) as Hh.
  { apply bytes_to_cstruct_agree. intros i Hi. apply Hagree.
    left. unfold sizeof_KtxHeader. lia. }
  unfold KTXFile_open. rewrite <- Hlen, <- Hh.
  destruct (_ <? _); [done|]. case_decide; [done|].
  f_equal. unfold slice_from. apply drop_agree.
  intros i Hi. apply Hagree. right. lia.
Qed.

Lemma open_ignores_key_value_data_witness :
  KTXFile_open "kv.ktx" (Fixtures.kv_file xff x01)
  = KTXFile_open "kv.ktx" (Fixtures.kv_file x00 x00).
Proof.
  apply (open_ignores_key_value_data "kv.ktx"
           (Fixtures.kv_file xff x01) (Fixtures.kv_file x00 x00)).
  - reflexivity.
  - intros i Hi.
    change (bytes_of_key_value_data
              (bytes_to_cstruct (Fixtures.kv_file xff x01)))
      with 2 in Hi.
    unfold sizeof_KtxHeader in Hi.
    do 64 (destruct i as [|i]; [reflexivity|]).
    do 2 (destruct i as [|i]; [exfalso; lia|]).
    reflexivity.
Defined.

(** The two files do differ, inside the block only. *)
Example kv_files_differ :
  Fixtures.kv_file xff x01 ≠ Fixtures.kv_file x00 x00.
Proof. vm_compute. discriminate. Qed.

(** ** The width *)

(** C10.  A successful decode stores [pixelWidth] as it is, while height,
    depth, mip count, array elements and faces are raised to at least 1; a
    header of width 0 gives a texture of width 0 whose every record has
    width 0. *)
Theorem width_is_not_clamped fname h src t :
  KTXFile_init fname h src = Ok t →
  width t = pixel_width h ∧
  height t = Z.max (pixel_height h) 1 ∧
  depth t = Z.max (pixel_depth h) 1 ∧
  mips_level t = Z.max (number_of_mipmap_levels h) 1 ∧
  array_element t = Z.max (number_of_array_elements h) 1 ∧
  faces t = Z.max (number_of_faces h) 1 ∧
  (pixel_width h = 0 →
     width t = 0 ∧ ∀ m, m ∈ mipmaps t → Mip.width m = 0).
Proof.
  intros (fmt & s & _ & _ & _ & Hs & ->)%KTXFile_init_Ok_inv. simpl.
  do 6 (split; [done|]).
  intros Hw. split; [done|]. intros m [i Hi]%list_elem_of_lookup.
  apply (load_mips_halved _ _ _ _ _ _ (loop_entry_halved _ _)) in Hs.
  destruct Hs as (_ & _ & Hrec). apply Hrec in Hi as [-> _].
  rewrite Hw. apply Z.div_0_l. lia.
Qed.

Lemma width_is_not_clamped_witness :
  KTXFile_open "w0.ktx" Fixtures.zero_width_file
    = Ok (Fixtures.zero_width_texture "w0.ktx") ∧
  pixel_width (bytes_to_cstruct Fixtures.zero_width_file) = 0 ∧
  width (Fixtures.zero_width_texture "w0.ktx") = 0 ∧
  ∀ m, m ∈ mipmaps (Fixtures.zero_width_texture "w0.ktx") → Mip.width m = 0.
Proof.
  split; [vm_compute; reflexivity|]. split; [vm_compute; reflexivity|].
  apply (width_is_not_clamped "w0.ktx"
           (bytes_to_cstruct Fixtures.zero_width_file)
           (slice_from Fixtures.zero_width_file 64)
           (Fixtures.zero_width_texture "w0.ktx")).
  - vm_compute. reflexivity.
  - vm_compute. reflexivity.
Defined.

(** * Further properties of the loader *)

(** ** 32-bit values *)

Lemma byte_to_Z_bound b : 0 ≤ byte_to_Z b < 256.
Proof. unfold byte_to_Z. pose proof (Byte.to_N_bounded b). lia. Qed.

Lemma lor_lt_pow2 a b n :
  0 < n → 0 ≤ a < 2 ^ n → 0 ≤ b < 2 ^ n → Z.lor a b < 2 ^ n.
Proof.
  intros Hn Ha Hb.
  assert (0 ≤ Z.lor a b) as Hnn by (apply Z.lor_nonneg; lia).
  destruct (decide (Z.lor a b = 0)) as [->|Hz]; [lia|].
  apply Z.log2_lt_pow2; [lia|]. rewrite Z.log2_lor by lia.
  assert (∀ c, 0 ≤ c < 2 ^ n → Z.log2 c < n) as Hlog.
  { intros c Hc. destruct (decide (c = 0)) as [->|?]; [simpl; lia|].
    apply Z.log2_lt_pow2; lia. }
  pose proof (Hlog a Ha). pose proof (Hlog b Hb). lia.
Qed.

Lemma lor_bound a b n :
  0 < n → 0 ≤ a < 2 ^ n → 0 ≤ b < 2 ^ n → 0 ≤ Z.lor a b < 2 ^ n.
Proof.
  intros. split; [apply Z.lor_nonneg; lia | by apply lor_lt_pow2].
Qed.

Lemma shiftl_byte_bound c k :
  0 ≤ c < 256 → 0 ≤ k ≤ 24 → 0 ≤ Z.shiftl c k < 2 ^ 32.
Proof.
  intros Hc Hk. rewrite Z.shiftl_mul_pow2 by lia.
  assert (2 ^ k ≤ 2 ^ 24) by (apply Z.pow_le_mono_r; lia).
  assert (0 < 2 ^ k) by (apply Z.pow_pos_nonneg; lia).
  change (2 ^ 32) with (256 * 2 ^ 24). nia.
Qed.

Lemma u32_of_bytes_bound b0 b1 b2 b3 : 0 ≤ u32_of_bytes b0 b1 b2 b3 < 2 ^ 32.
Proof.
  unfold u32_of_bytes.
  pose proof (byte_to_Z_bound b0). pose proof (byte_to_Z_bound b1).
  pose proof (byte_to_Z_bound b2). pose proof (byte_to_Z_bound b3).
  apply lor_bound; [lia | lia |].
  apply lor_bound; [lia | by apply shiftl_byte_bound |].
  apply lor_bound; [lia | |]; by apply shiftl_byte_bound.
Qed.

Lemma byte_to_of_Z z : 0 ≤ z < 256 → byte_to_Z (byte_of_Z z) = z.
Proof.
  intros Hz. unfold byte_to_Z, byte_of_Z.
  pose proof (Byte.to_of_N_option_map (Z.to_N z)) as H.
  destruct (N.leb_spec (Z.to_N z) 255); [|lia].
  destruct (Byte.of_N (Z.to_N z)) as [b|]; simpl in *; [|done].
  injection H as ->. lia.
Qed.

(** [unpack] after [pack] is the identity on the 32-bit range. *)
Lemma u32_of_bytes_pack n :
  0 ≤ n < 2 ^ 32 →
  u32_of_bytes (byte_of_Z (Z.land n 255))
               (byte_of_Z (Z.land (Z.shiftr n 8) 255))
               (byte_of_Z (Z.land (Z.shiftr n 16) 255))
               (byte_of_Z (Z.land (Z.shiftr n 24) 255)) = n.
Proof.
  intros Hn. unfold u32_of_bytes. change 255 with (Z.ones 8).
  rewrite !Z.land_ones by lia.
  rewrite !byte_to_of_Z by (apply Z.mod_pos_bound; lia).
  apply Z.bits_inj'. intros i Hi.
  rewrite !Z.lor_spec, !Z.shiftl_spec by lia.
  assert (∀ a k, Z.testbit (a `mod` 2 ^ 8) k = (0 <=? k) && (k <? 8) && Z.testbit a k)
    as Hbit.
  { intros a k. destruct (Z.leb_spec 0 k); simpl.
    - by rewrite Z.testbit_mod_pow2 by lia.
    - by rewrite Z.testbit_neg_r by lia. }
  rewrite !Hbit.
  repeat match goal with
    | |- context [?a <=? ?b] => destruct (Z.leb_spec a b)
    | |- context [?a <? ?b] => destruct (Z.ltb_spec a b)
    end; simpl; rewrite ?orb_false_r; try lia;
    rewrite ?Z.shiftr_spec by lia; try (f_equal; lia).
  symmetry. apply Z.bits_above_log2; [lia|].
  destruct (decide (n = 0)) as [->|?]; [simpl; lia|].
  assert (Z.log2 n < 32) by (apply Z.log2_lt_pow2; lia). lia.
Qed.

(** ** Decoding a written stream *)

Lemma slice_middle (pre mid post : list byte) :
  slice (pre ++ mid ++ post) (Z.of_nat (length pre))
        (Z.of_nat (length pre) + Z.of_nat (length mid)) = mid.
Proof.
  unfold slice. rewrite Nat2Z.id, drop_app_length.
  replace (Z.to_nat _) with (length mid) by lia.
  apply take_app_length.
Qed.

Lemma slice_app_l (src extra : list byte) a b :
  0 ≤ a → b ≤ Z.of_nat (length src) → slice (src ++ extra) a b = slice src a b.
Proof.
  intros Ha Hb. unfold slice.
  destruct (decide (Z.of_nat (length src) < a)) as [Hlt|Hge].
  - replace (Z.to_nat (b - a)) with 0%nat by lia. done.
  - rewrite drop_app_le by lia. apply take_app_le. rewrite length_drop. lia.
Qed.

Lemma unpack_from_I_pack pre post n :
  0 ≤ n < 2 ^ 32 →
  unpack_from_I (pre ++ pack_I n ++ post) (Z.of_nat (length pre)) = Ok n.
Proof.
  intros Hn. unfold unpack_from_I.
  replace (pre ++ pack_I n ++ post) with (pre ++ pack_I n ++ post) by done.
  change 4 with (Z.of_nat (length (pack_I n))).
  rewrite slice_middle. simpl. by rewrite u32_of_bytes_pack.
Qed.

Lemma unpack_from_I_app_l src extra off :
  0 ≤ off → off + 4 ≤ Z.of_nat (length src) →
  unpack_from_I (src ++ extra) off = unpack_from_I src off.
Proof. intros. unfold unpack_from_I. by rewrite slice_app_l. Qed.

Lemma length_mip_chunk p :
  Z.of_nat (length (mip_chunk p)) = 4 + Z.of_nat (length p).
Proof. unfold mip_chunk. rewrite length_app. simpl. lia. Qed.

Lemma mip_stream_cons p ps : mip_stream (p :: ps) = mip_chunk p ++ mip_stream ps.
Proof. reflexivity. Qed.

(** One iteration over one written chunk. *)
Lemma load_mip_chunk pre p post s :
  Z.of_nat (length p) < 2 ^ 32 →
  data_offset s = Z.of_nat (length pre) →
  load_mip (pre ++ mip_chunk p ++ post) s =
  Ok {| data_offset := data_offset s + 4 + Z.of_nat (length p);
        local_offset := local_offset s + Z.of_nat (length p);
        mip_extent_width := mip_extent_width s / 2;
        mip_extent_height := mip_extent_height s / 2;
        self_data := self_data s ++ p;
        self_mipmaps := self_mipmaps s ++
          [ {| Mip.offset := local_offset s; Mip.size := Z.of_nat (length p);
               Mip.width := mip_extent_width s;
               Mip.height := mip_extent_height s |} ] |}.
Proof.
  intros Hp Hoff.
  assert (unpack_from_I (pre ++ mip_chunk p ++ post) (Z.of_nat (length pre))
          = Ok (Z.of_nat (length p))) as Hu.
  { unfold mip_chunk. rewrite <- app_assoc. apply unpack_from_I_pack. lia. }
  assert (slice (pre ++ mip_chunk p ++ post) (Z.of_nat (length pre) + 4)
            (Z.of_nat (length pre) + 4 + Z.of_nat (length p)) = p) as Hsl.
  { unfold mip_chunk. rewrite <- app_assoc.
    rewrite (app_assoc pre).
    replace (Z.of_nat (length pre) + 4)
      with (Z.of_nat (length (pre ++ pack_I (Z.of_nat (length p)))))
      by (rewrite length_app; unfold pack_I; simpl; lia).
    apply slice_middle. }
  unfold load_mip. rewrite Hoff, Hu.
  unfold mbind, result_bind, mret, result_ret. by rewrite Hsl.
Qed.

(** The loop reads a written stream back, wherever it starts in the
    source and whatever follows it. *)
Lemma load_mips_stream ps :
  ∀ pre post s,
    Forall (λ p, Z.of_nat (length p) < 2 ^ 32) ps →
    data_offset s = Z.of_nat (length pre) →
    ∃ s', load_mips (length ps) (pre ++ mip_stream ps ++ post) s = Ok s' ∧
          self_data s' = self_data s ++ concat ps ∧
          self_mipmaps s' = self_mipmaps s ++
            stream_records (local_offset s) (mip_extent_width s)
                           (mip_extent_height s) ps.
Proof.
  induction ps as [|p ps IH]; intros pre post s Hall Hoff.
  - exists s. simpl. by rewrite !app_nil_r.
  - apply Forall_cons in Hall as [Hp Hall].
    pose proof (load_mip_chunk pre p (mip_stream ps ++ post) s Hp Hoff) as Hstep.
    match type of Hstep with _ = Ok ?x => set (s1 := x) in * end.
    destruct (IH (pre ++ mip_chunk p) post s1 Hall) as (s' & Hs' & Hd & Hm).
    { unfold s1. simpl. rewrite length_app, Nat2Z.inj_add, length_mip_chunk. lia. }
    assert (pre ++ mip_stream (p :: ps) ++ post
            = pre ++ mip_chunk p ++ mip_stream ps ++ post) as Hsrc.
    { by rewrite mip_stream_cons, <- app_assoc. }
    exists s'. split; [|split].
    + rewrite Hsrc. change (length (p :: ps)) with (S (length ps)).
      cbn [load_mips]. rewrite Hstep.
      unfold mbind at 1, result_bind at 1. rewrite <- Hs'. f_equal.
      by rewrite <- !app_assoc.
    + rewrite Hd. unfold s1. simpl. by rewrite <- app_assoc.
    + rewrite Hm. unfold s1. simpl. by rewrite <- app_assoc.
Qed.

(** ** Which error, and when *)

Lemma unpack_from_I_Err_inv src off e :
  0 ≤ off → unpack_from_I src off = Err e →
  Z.of_nat (length src) < off + 4.
Proof.
  intros Hoff He.
  destruct (decide (off + 4 ≤ Z.of_nat (length src))) as [Hfit|]; [|lia].
  destruct (unpack_from_I_enough src off Hoff Hfit) as [v Hv]. congruence.
Qed.

(** A failing loop has a first iteration whose prefix is out of reach. *)
Lemma load_mips_Err_first n src s e :
  load_mips n src s = Err e → 0 ≤ data_offset s →
  ∃ (k : nat) sk, (k < n)%nat ∧ load_mips k src s = Ok sk ∧
                  Z.of_nat (length src) < data_offset sk + 4.
Proof.
  revert s. induction n as [|n IH]; intros s; simpl; [discriminate|].
  intros H Hs. apply bind_Err_inv in H as [H | (s1 & H1 & H)].
  - exists 0%nat, s. split; [lia|]. split; [done|].
    unfold load_mip in H. apply bind_Err_inv in H as [H | (? & _ & ?)]; [|done].
    by eapply unpack_from_I_Err_inv.
  - pose proof H1 as H1'. step_inv H1'.
    apply unpack_from_I_Ok_inv in Hsz as [? ?]; [|done].
    destruct (IH s1 H ltac:(lia)) as (k & sk & Hk & Hsk & Hshort).
    exists (S k), sk. split; [lia|]. split; [|done].
    simpl. by rewrite H1.
Qed.

(** The four ways the constructor can fail, in the order it checks. *)
Lemma KTXFile_init_Err_inv fname h src e :
  KTXFile_init fname h src = Err e →
  header_format h = Err e ∨
  (∃ fmt, header_format h = Ok fmt) ∧
  ( e = UnsupportedTextureLayout ∧
    (1 < number_of_array_elements h ∨ 1 < number_of_faces h)
  ∨ e = TruncatedMipData ∧
    number_of_array_elements h ≤ 1 ∧ number_of_faces h ≤ 1 ∧
    load_mips (Z.to_nat (Z.max (number_of_mipmap_levels h) 1)) src
      (loop_entry (pixel_width h) (Z.max (pixel_height h) 1))
    = Err TruncatedMipData ).
Proof.
  unfold KTXFile_init. intros H.
  apply bind_Err_inv in H as [H | (fmt & Hfmt & H)]; [by left|].
  right. split; [by exists fmt|].
  destruct (_ || _) eqn:Hl.
  - injection H as <-. left. split; [done|].
    apply orb_true_iff in Hl as [?|?]; lia.
  - apply orb_false_iff in Hl as [? ?].
    apply bind_Err_inv in H as [H | (? & _ & ?)]; [|done].
    pose proof (load_mips_Err_inv _ _ _ _ H) as ->.
    right. repeat split; [lia | lia | done].
Qed.

Lemma header_format_Err_inv h e :
  header_format h = Err e →
  e = UnsupportedPixelFormat ∧ is_compressed h = false ∨
  e = UnknownCompressionFormat ∧ is_compressed h = true ∧
    GL_TO_VK_FORMATS !! gl_internal_format h = None.
Proof.
  unfold header_format. destruct (is_compressed h); simpl.
  - destruct (GL_TO_VK_FORMATS !! gl_internal_format h) as [[?|? ?]|];
      simpl; intros [= <-]. by right.
  - intros [= <-]. by left.
Qed.

Lemma is_compressed_true h :
  is_compressed h = true ↔
  gl_type h = 0 ∧ gl_type_size h = 1 ∧ gl_format h = 0.
Proof. unfold is_compressed. rewrite !andb_true_iff. lia. Qed.

Lemma GL_TO_VK_FORMATS_None k :
  GL_TO_VK_FORMATS !! k = None ↔ k ∉ supported_internal_formats.
Proof.
  unfold GL_TO_VK_FORMATS. rewrite <- not_elem_of_list_to_map. done.
Qed.

(** X1.  [open] fails with [TruncatedFile] exactly for the buffers shorter
    than the 64-byte header; no later stage reports that error. *)
Theorem open_truncated_file_iff path contents :
  KTXFile_open path contents = Err TruncatedFile ↔
  Z.of_nat (length contents) < 64.
Proof.
  unfold KTXFile_open, sizeof_KtxHeader.
  destruct (Z.ltb_spec (Z.of_nat (length contents)) 64); [done|].
  split; [|lia]. case_decide; [done|]. intros He.
  apply KTXFile_init_Err_inv in He
    as [Hf | (_ & [[? _] | [? _]])]; [|done..].
  apply header_format_Err_inv in Hf as [[? _] | [? _]]; done.
Qed.

(** X2.  [open] fails with [InvalidMagic] exactly for the buffers of at
    least 64 bytes whose first twelve bytes are not the magic. *)
Theorem open_invalid_magic_iff path contents :
  KTXFile_open path contents = Err InvalidMagic ↔
  64 ≤ Z.of_nat (length contents) ∧ take 12 contents ≠ Ktx10HeaderData.
Proof.
  unfold KTXFile_open, sizeof_KtxHeader.
  destruct (Z.ltb_spec (Z.of_nat (length contents)) 64).
  { split; [done | lia]. }
  case_decide as Hid; [done|]. split; [|intros [_ ?]; by destruct Hid].
  intros He. apply KTXFile_init_Err_inv in He
    as [Hf | (_ & [[? _] | [? _]])]; [|done..].
  apply header_format_Err_inv in Hf as [[? _] | [? _]]; done.
Qed.

(** X3.  The constructor fails with [UnsupportedPixelFormat] exactly when
    the triplet [(glType, glTypeSize, glFormat)] is not [(0, 1, 0)],
    whatever the internal format, the layout counts and the payload. *)
Theorem init_pixel_format_iff fname h src :
  KTXFile_init fname h src = Err UnsupportedPixelFormat ↔
  ¬ (gl_type h = 0 ∧ gl_type_size h = 1 ∧ gl_format h = 0).
Proof.
  rewrite <- is_compressed_true. split.
  - intros H. apply KTXFile_init_Err_inv in H
      as [H | (_ & [[? _] | [? _]])]; [|done..].
    apply header_format_Err_inv in H as [[_ ->] | [? _]]; done.
  - intros Hc. apply KTXFile_init_format_error, header_format_uncompressed.
    by destruct (is_compressed h).
Qed.

(** X4.  The constructor fails with [UnknownCompressionFormat] exactly when
    the triplet is [(0, 1, 0)] and [glInternalFormat] is none of the twelve
    keys of the table. *)
Theorem init_unknown_format_iff fname h src :
  KTXFile_init fname h src = Err UnknownCompressionFormat ↔
  (gl_type h = 0 ∧ gl_type_size h = 1 ∧ gl_format h = 0) ∧
  gl_internal_format h ∉ supported_internal_formats.
Proof.
  rewrite <- is_compressed_true, <- GL_TO_VK_FORMATS_None. split.
  - intros H. apply KTXFile_init_Err_inv in H
      as [H | (_ & [[? _] | [? _]])]; [|done..].
    apply header_format_Err_inv in H as [[? _] | [_ ?]]; done.
  - intros [Hc Hk]. by apply KTXFile_init_format_error, header_format_unknown.
Qed.

(** X5.  The constructor fails with [UnsupportedTextureLayout] exactly when
    the format resolves and the array-element count or the face count is
    above 1. *)
Theorem init_layout_iff fname h src :
  KTXFile_init fname h src = Err UnsupportedTextureLayout ↔
  (∃ fmt, header_format h = Ok fmt) ∧
  (1 < number_of_array_elements h ∨ 1 < number_of_faces h).
Proof.
  split.
  - intros H. apply KTXFile_init_Err_inv in H
      as [H | (Hfmt & [[_ ?] | [? _]])]; [|done..].
    apply header_format_Err_inv in H as [[? _] | [? _]]; done.
  - intros [[fmt Hfmt] Hl]. by eapply KTXFile_init_layout.
Qed.

(** X6.  The constructor fails with [TruncatedMipData] exactly when the
    format resolves, the layout is accepted, and after some number [k] of
    complete iterations, with a further level due, fewer than four bytes
    are left at the read cursor. *)
Theorem init_truncated_iff fname h src :
  KTXFile_init fname h src = Err TruncatedMipData ↔
  (∃ fmt, header_format h = Ok fmt) ∧
  number_of_array_elements h ≤ 1 ∧ number_of_faces h ≤ 1 ∧
  ∃ (k : nat) sk,
    Z.of_nat k < Z.max (number_of_mipmap_levels h) 1 ∧
    load_mips k src (loop_entry (pixel_width h) (Z.max (pixel_height h) 1))
      = Ok sk ∧
    Z.of_nat (length src) < data_offset sk + 4.
Proof.
  split.
  - intros H. apply KTXFile_init_Err_inv in H
      as [H | (Hfmt & [[? _] | (_ & Ha & Hf & Hloop)])]; [|done|].
    { apply header_format_Err_inv in H as [[? _] | [? _]]; done. }
    do 3 (split; [done|]).
    apply load_mips_Err_first in Hloop as (k & sk & Hk & Hsk & Hshort);
      [|done].
    exists k, sk. repeat split; [lia | done | done].
  - intros ([fmt Hfmt] & Ha & Hf & k & sk & Hk & Hsk & Hshort).
    by eapply KTXFile_init_prefix_past_end.
Qed.

(** ** What the resolver can return *)

Lemma header_format_Ok_inv h fmt :
  header_format h = Ok fmt →
  is_compressed h = true ∧ (gl_internal_format h, fmt) ∈ resolved_formats.
Proof.
  unfold header_format. destruct (is_compressed h); [|discriminate].
  simpl. destruct (GL_TO_VK_FORMATS !! gl_internal_format h) as [e|] eqn:E;
    [|discriminate].
  apply elem_of_list_to_map_2 in E.
  rewrite !elem_of_cons, elem_of_nil in E.
  intros Hsel. split; [done|]. unfold resolved_formats.
  destruct_or!; try done;
    injection E as Hk ->; rewrite Hk; simpl in Hsel; injection Hsel as <-;
    rewrite !elem_of_cons; tauto.
Qed.

(** X7.  The resolver never returns one of the four S3TC sRGB formats
    (the second members of the tuples); the one sRGB format it can return
    is [FORMAT_BC7_SRGB_BLOCK], and it does so exactly for the key
    [0x8E8D], which the table lists as a format of its own. *)
Theorem resolved_format_srgb h fmt :
  header_format h = Ok fmt →
  (fmt ∉ [ FORMAT_BC1_RGB_SRGB_BLOCK; FORMAT_BC1_RGBA_SRGB_BLOCK;
           FORMAT_BC2_SRGB_BLOCK; FORMAT_BC3_SRGB_BLOCK ]) ∧
  (fmt = FORMAT_BC7_SRGB_BLOCK ↔ gl_internal_format h = 0x8E8D).
Proof.
  intros [_ Hin]%header_format_Ok_inv. unfold resolved_formats in Hin.
  rewrite !elem_of_cons, elem_of_nil in Hin.
  rewrite !not_elem_of_cons.
  destruct_or!; try done; injection Hin as Hk ->; rewrite Hk;
    (split; [repeat split; try discriminate; apply not_elem_of_nil|]);
    split; intros ?; done.
Qed.

Lemma resolved_format_srgb_witness :
  header_format (Samples.compressed_header 0x8E8D 1) = Ok FORMAT_BC7_SRGB_BLOCK ∧
  (FORMAT_BC7_SRGB_BLOCK ∉ [ FORMAT_BC1_RGB_SRGB_BLOCK; FORMAT_BC1_RGBA_SRGB_BLOCK;
                             FORMAT_BC2_SRGB_BLOCK; FORMAT_BC3_SRGB_BLOCK ]).
Proof.
  split; [reflexivity|].
  apply (resolved_format_srgb (Samples.compressed_header 0x8E8D 1)).
  reflexivity.
Defined.

(** X8.  Two headers that resolve to the same format carry the same
    [glInternalFormat]: the resolver is injective on the keys it accepts. *)
Theorem resolved_format_injective h1 h2 fmt :
  header_format h1 = Ok fmt → header_format h2 = Ok fmt →
  gl_internal_format h1 = gl_internal_format h2.
Proof.
  intros [_ H1]%header_format_Ok_inv [_ H2]%header_format_Ok_inv.
  unfold resolved_formats in *.
  rewrite !elem_of_cons, elem_of_nil in H1, H2.
  destruct H1 as [H1|[H1|[H1|[H1|[H1|[H1|[H1|[H1|[H1|[H1|[H1|[H1|[]]]]]]]]]]]]];
    injection H1 as -> ->; destruct_or!; try done;
    injection H2 as ->; done.
Qed.

Lemma resolved_format_injective_witness :
  gl_internal_format (Samples.compressed_header 0x8DBB 1)
  = gl_internal_format (bytes_to_cstruct Fixtures.two_level_file).
Proof.
  apply (resolved_format_injective (Samples.compressed_header 0x8DBB 1)
           (bytes_to_cstruct Fixtures.two_level_file) FORMAT_BC4_UNORM_BLOCK).
  - reflexivity.
  - vm_compute. reflexivity.
Defined.

(** ** Decoding what was written *)

(** X9.  For a header the resolver accepts, with at most one array
    element and one face, and a source made of one written chunk per mip
    level (payloads shorter than 2^32 bytes) followed by anything, the
    constructor succeeds: the data buffer is the payloads joined in order
    and the records are those of the payloads. *)
Theorem decode_mip_stream fname h fmt ps post :
  header_format h = Ok fmt →
  number_of_array_elements h ≤ 1 → number_of_faces h ≤ 1 →
  Z.max (number_of_mipmap_levels h) 1 = Z.of_nat (length ps) →
  Forall (λ p, Z.of_nat (length p) < 2 ^ 32) ps →
  KTXFile_init fname h (mip_stream ps ++ post) =
  Ok {| file_name := fname;
        width := pixel_width h;
        height := Z.max (pixel_height h) 1;
        depth := Z.max (pixel_depth h) 1;
        mips_level := Z.of_nat (length ps);
        array_element := 1;
        faces := 1;
        target := header_target h;
        format := fmt;
        data := concat ps;
        mipmaps := stream_records 0 (pixel_width h)
                     (Z.max (pixel_height h) 1) ps |}.
Proof.
  intros Hfmt Ha Hf Hmips Hall. unfold KTXFile_init. rewrite Hfmt.
  unfold mbind at 1, result_bind at 1.
  destruct (_ || _) eqn:E.
  { apply orb_true_iff in E as [?|?]; lia. }
  rewrite Hmips, Nat2Z.id.
  destruct (load_mips_stream ps [] post
              (loop_entry (pixel_width h) (Z.max (pixel_height h) 1)) Hall)
    as (s' & Hs' & Hd & Hm); [done|].
  simpl in Hs'. rewrite Hs'. simpl in Hd, Hm.
  unfold mbind, result_bind, mret, result_ret. rewrite Hd, Hm.
  f_equal. f_equal; lia.
Qed.

Lemma decode_mip_stream_witness :
  KTXFile_init "w.ktx" (Samples.compressed_header 0x83F0 2)
    (mip_stream Samples.payloads ++ [xff; xfe]%byte)
  = Ok (Samples.payloads_texture "w.ktx").
Proof.
  apply (decode_mip_stream "w.ktx" (Samples.compressed_header 0x83F0 2)
           FORMAT_BC1_RGB_UNORM_BLOCK Samples.payloads [xff; xfe]%byte).
  - reflexivity.
  - simpl. lia.
  - simpl. lia.
  - reflexivity.
  - repeat constructor.
Defined.

Lemma stream_records_lookup ps :
  ∀ off w h (i : nat) m,
    stream_records off w h ps !! i = Some m →
    ∃ p, ps !! i = Some p ∧
         Mip.offset m = off + Z.of_nat (length (concat (take i ps))) ∧
         Mip.size m = Z.of_nat (length p).
Proof.
  induction ps as [|p ps IH]; intros off w h i m; simpl; [done|].
  destruct i as [|i]; simpl.
  - intros [= <-]. exists p. simpl. repeat split; (done || lia).
  - intros (q & Hq & Ho & Hsz)%IH. exists q. split; [done|].
    rewrite length_app, Nat2Z.inj_add. split; [lia | done].
Qed.

(** X10.  After decoding a written stream, the byte range that record [i]
    names in the data buffer holds payload [i], unchanged. *)
Theorem level_range_holds_payload fname h ps post t (i : nat) m :
  Forall (λ p, Z.of_nat (length p) < 2 ^ 32) ps →
  Z.max (number_of_mipmap_levels h) 1 = Z.of_nat (length ps) →
  KTXFile_init fname h (mip_stream ps ++ post) = Ok t →
  mipmaps t !! i = Some m →
  ps !! i = Some (slice (data t) (Mip.offset m) (Mip.offset m + Mip.size m)).
Proof.
  intros Hall Hmips Ht Hi.
  apply KTXFile_init_Ok_inv in Ht as (fmt & s & _ & _ & _ & Hs & ->).
  rewrite Hmips, Nat2Z.id in Hs.
  destruct (load_mips_stream ps [] post
              (loop_entry (pixel_width h) (Z.max (pixel_height h) 1)) Hall)
    as (s' & Hs' & Hd & Hm); [done|].
  simpl in Hs', Hd, Hm, Hi |- *.
  rewrite Hs in Hs'. injection Hs' as <-. rewrite Hd. rewrite Hm in Hi.
  apply stream_records_lookup in Hi as (p & Hp & -> & ->).
  rewrite Hp. f_equal.
  rewrite <- (take_drop_middle ps i p Hp) at 1.
  rewrite concat_app. simpl concat. rewrite Z.add_0_l.
  symmetry. apply slice_middle.
Qed.

Lemma level_range_holds_payload_witness :
  Samples.payloads !! 1%nat
  = Some (slice (data (Samples.payloads_texture "w.ktx")) 2 (2 + 1)).
Proof.
  apply (level_range_holds_payload "w.ktx" (Samples.compressed_header 0x83F0 2)
           Samples.payloads [xff; xfe]%byte (Samples.payloads_texture "w.ktx")
           1%nat {| Mip.offset := 2; Mip.size := 1;
                    Mip.width := 4; Mip.height := 4 |}).
  - repeat constructor.
  - reflexivity.
  - vm_compute. reflexivity.
  - reflexivity.
Defined.

(** ** Bytes after the last level *)

Lemma load_mip_app_r src extra s s1 :
  load_mip src s = Ok s1 → 0 ≤ data_offset s →
  data_offset s1 ≤ Z.of_nat (length src) →
  load_mip (src ++ extra) s = Ok s1.
Proof.
  intros H Hs Hend. pose proof H as H'. step_inv H'.
  pose proof Hsz as [? ?]%unpack_from_I_Ok_inv; [|done].
  unfold load_mip in *. rewrite unpack_from_I_app_l by lia.
  rewrite Hsz in *. unfold mbind, result_bind in *.
  rewrite slice_app_l by lia. done.
Qed.

Lemma load_mips_app_r n src extra s s' :
  load_mips n src s = Ok s' → 0 ≤ data_offset s →
  data_offset s' ≤ Z.of_nat (length src) →
  load_mips n (src ++ extra) s = Ok s'.
Proof.
  revert s. induction n as [|n IH]; intros s; simpl; [done|].
  intros H Hs Hend. apply bind_Ok_inv in H as (s1 & H1 & H).
  pose proof H1 as H1'. step_inv H1'.
  pose proof Hsz as [? ?]%unpack_from_I_Ok_inv; [|done].
  pose proof (load_mips_data_offset_mono _ _ _ _ H ltac:(lia)).
  rewrite (load_mip_app_r _ _ _ _ H1) by lia. simpl.
  apply IH; [done | lia | done].
Qed.

(** X11.  When the source holds every prefix and every payload in full,
    bytes appended after the last level do not change the result. *)
Theorem trailing_bytes_ignored fname h src extra t :
  KTXFile_init fname h src = Ok t →
  4 * mips_level t + total_size (mipmaps t) ≤ Z.of_nat (length src) →
  KTXFile_init fname h (src ++ extra) = Ok t.
Proof.
  intros Ht Hfit.
  apply KTXFile_init_Ok_inv in Ht as (fmt & s & Hfmt & Ha & Hf & Hs & ->).
  simpl in Hfit.
  pose proof (load_mips_packed _ _ _ _ (loop_entry_packed _ _) Hs) as [Hlo _].
  pose proof (load_mips_cursor _ _ _ _ Hs) as Hc. simpl in Hc.
  unfold KTXFile_init. rewrite Hfmt. unfold mbind at 1, result_bind at 1.
  destruct (_ || _) eqn:E.
  { apply orb_true_iff in E as [?|?]; lia. }
  rewrite (load_mips_app_r _ _ extra _ _ Hs); [done | done | lia].
Qed.

Lemma trailing_bytes_ignored_witness :
  KTXFile_init "bc4.ktx" (bytes_to_cstruct Fixtures.two_level_file)
    (slice_from Fixtures.two_level_file 64 ++ [xff; xfe; xfd]%byte)
  = Ok (Fixtures.two_level_texture "bc4.ktx").
Proof.
  apply (trailing_bytes_ignored "bc4.ktx"
           (bytes_to_cstruct Fixtures.two_level_file)
           (slice_from Fixtures.two_level_file 64) [xff; xfe; xfd]%byte
           (Fixtures.two_level_texture "bc4.ktx")).
  - vm_compute. reflexivity.
  - vm_compute. discriminate.
Defined.

(** ** Ranges of sizes and offsets *)

Lemma unpack_from_I_bound src off v :
  unpack_from_I src off = Ok v → 0 ≤ v < 2 ^ 32.
Proof.
  unfold unpack_from_I. repeat case_match; try discriminate.
  intros [= <-]. apply u32_of_bytes_bound.
Qed.

Lemma load_mips_sizes_u32 n src s s' :
  load_mips n src s = Ok s' →
  Forall (λ m, 0 ≤ Mip.size m < 2 ^ 32) (self_mipmaps s) →
  Forall (λ m, 0 ≤ Mip.size m < 2 ^ 32) (self_mipmaps s').
Proof.
  revert s. induction n as [|n IH]; intros s; simpl.
  - by intros [= <-].
  - intros H Hall. apply bind_Ok_inv in H as (s1 & H1 & H). step_inv H1.
    apply unpack_from_I_bound in Hsz.
    apply (IH _ H). rewrite Hm. apply Forall_app. split; [done|].
    by apply Forall_singleton.
Qed.

Lemma total_size_take_S ms (i : nat) m :
  ms !! i = Some m →
  total_size (take (S i) ms) = total_size (take i ms) + Mip.size m.
Proof. intros H. by rewrite (take_S_r _ _ _ H), total_size_snoc. Qed.

(** X12.  In a successful decode every record has a size in the 32-bit
    range and a non-negative offset, and its byte range ends within the
    sum of the recorded sizes. *)
Theorem mip_ranges_bounded fname h src t (i : nat) m :
  KTXFile_init fname h src = Ok t →
  mipmaps t !! i = Some m →
  0 ≤ Mip.size m < 2 ^ 32 ∧ 0 ≤ Mip.offset m ∧
  Mip.offset m + Mip.size m ≤ total_size (mipmaps t).
Proof.
  intros Ht Hi.
  pose proof (mip_offsets_contiguous _ _ _ _ Ht _ _ Hi) as Hoff.
  apply KTXFile_init_Ok_inv in Ht as (fmt & s & _ & _ & _ & Hs & ->).
  simpl in *.
  pose proof (load_mips_sizes_u32 _ _ _ _ Hs ltac:(constructor)) as Hall.
  assert (Forall (λ m, 0 ≤ Mip.size m) (self_mipmaps s)) as Hnn.
  { eapply Forall_impl; [exact Hall|]. simpl. lia. }
  split; [by eapply (proj1 (Forall_lookup _ _) Hall)|].
  rewrite Hoff. split.
  - apply total_size_nonneg. by apply Forall_take.
  - rewrite <- (total_size_take_S _ _ _ Hi).
    rewrite <- (take_ge (self_mipmaps s) (length (self_mipmaps s))) at 2 by lia.
    apply total_size_take_mono; [done|].
    apply lookup_lt_Some in Hi. lia.
Qed.

Lemma mip_ranges_bounded_witness :
  0 ≤ 4 < 2 ^ 32 ∧ 0 ≤ 8 ∧
  8 + 4 ≤ total_size (mipmaps (Fixtures.two_level_texture "bc4.ktx")).
Proof.
  apply (mip_ranges_bounded "bc4.ktx"
           (bytes_to_cstruct Fixtures.two_level_file)
           (slice_from Fixtures.two_level_file 64)
           (Fixtures.two_level_texture "bc4.ktx") 1%nat
           {| Mip.offset := 8; Mip.size := 4; Mip.width := 2; Mip.height := 2 |}).
  - vm_compute. reflexivity.
  - reflexivity.
Defined.

(** X13.  In a successful decode the first record starts at offset 0 and
    every record starts where the one before it ends: the ranges neither
    overlap nor leave a gap. *)
Theorem mip_ranges_adjacent fname h src t :
  KTXFile_init fname h src = Ok t →
  (∀ m0, mipmaps t !! 0%nat = Some m0 → Mip.offset m0 = 0) ∧
  (∀ (i : nat) m m', mipmaps t !! i = Some m → mipmaps t !! S i = Some m' →
     Mip.offset m' = Mip.offset m + Mip.size m).
Proof.
  intros Ht. pose proof (mip_offsets_contiguous _ _ _ _ Ht) as Hoff. split.
  - intros m0 H0. by rewrite (Hoff _ _ H0).
  - intros i m m' Hi Hi'.
    rewrite (Hoff _ _ Hi), (Hoff _ _ Hi'). by apply total_size_take_S.
Qed.

Lemma mip_ranges_adjacent_witness :
  KTXFile_init "bc4.ktx" (bytes_to_cstruct Fixtures.two_level_file)
    (slice_from Fixtures.two_level_file 64)
    = Ok (Fixtures.two_level_texture "bc4.ktx") ∧
  Mip.offset {| Mip.offset := 8; Mip.size := 4; Mip.width := 2; Mip.height := 2 |}
  = Mip.offset {| Mip.offset := 0; Mip.size := 8; Mip.width := 4; Mip.height := 4 |}
    + Mip.size {| Mip.offset := 0; Mip.size := 8; Mip.width := 4; Mip.height := 4 |}.
Proof.
  split; [vm_compute; reflexivity|].
  apply (proj2 (mip_ranges_adjacent "bc4.ktx"
                  (bytes_to_cstruct Fixtures.two_level_file)
                  (slice_from Fixtures.two_level_file 64)
                  (Fixtures.two_level_texture "bc4.ktx")
                  ltac:(vm_compute; reflexivity)) 0%nat);
    reflexivity.
Defined.

(** ** From the file to the data buffer *)

(** X14.  For a file that [open] accepts, the data buffer is never longer
    than the sum of the recorded sizes, and has exactly that length when
    the file is long enough for the header, the key-value block, one
    prefix per level and the recorded sizes. *)
Theorem open_data_length path contents t :
  KTXFile_open path contents = Ok t →
  Z.of_nat (length (data t)) ≤ total_size (mipmaps t) ∧
  (64 + bytes_of_key_value_data (bytes_to_cstruct contents)
     + 4 * mips_level t + total_size (mipmaps t)
     ≤ Z.of_nat (length contents) →
   Z.of_nat (length (data t)) = total_size (mipmaps t)).
Proof.
  intros (Hlen & _ & Ht)%KTXFile_open_Ok_inv. unfold sizeof_KtxHeader in *.
  split; [by eapply data_length_le|].
  intros Hfit. eapply data_length_complete; [exact Ht|].
  assert (0 ≤ bytes_of_key_value_data (bytes_to_cstruct contents))
    by apply u32_of_bytes_nonneg.
  unfold slice_from. rewrite length_drop. lia.
Qed.

Lemma open_data_length_witness :
  KTXFile_open "bc4.ktx" Fixtures.two_level_file
    = Ok (Fixtures.two_level_texture "bc4.ktx") ∧
  Z.of_nat (length (data (Fixtures.two_level_texture "bc4.ktx")))
    ≤ total_size (mipmaps (Fixtures.two_level_texture "bc4.ktx")).
Proof.
  split; [vm_compute; reflexivity|].
  apply (open_data_length "bc4.ktx" Fixtures.two_level_file
           (Fixtures.two_level_texture "bc4.ktx")).
  vm_compute. reflexivity.
Defined.

(** X15.  A key-value length that points past the end of the file is not
    an error of its own: the slice after the block is empty, and a file
    that passes the header checks fails with [TruncatedMipData] as soon as
    fewer than four bytes follow the announced block. *)
Theorem key_value_past_end path contents fmt :
  64 ≤ Z.of_nat (length contents) →
  take 12 contents = Ktx10HeaderData →
  header_format (bytes_to_cstruct contents) = Ok fmt →
  number_of_array_elements (bytes_to_cstruct contents) ≤ 1 →
  number_of_faces (bytes_to_cstruct contents) ≤ 1 →
  Z.of_nat (length contents)
    < 64 + bytes_of_key_value_data (bytes_to_cstruct contents) + 4 →
  KTXFile_open path contents = Err TruncatedMipData.
Proof.
  intros Hlen Hid Hfmt Ha Hf Hshort. unfold KTXFile_open, sizeof_KtxHeader.
  destruct (Z.ltb_spec (Z.of_nat (length contents)) 64); [lia|].
  case_decide as Hne; [by destruct Hne|].
  eapply (KTXFile_init_prefix_past_end _ _ _ fmt 0%nat (loop_entry _ _));
    try done.
  - lia.
  - unfold slice_from, loop_entry. cbn [data_offset].
    rewrite length_drop. lia.
Qed.

Lemma key_value_past_end_witness :
  bytes_of_key_value_data (bytes_to_cstruct Samples.kv_past_end_file) = 200 ∧
  KTXFile_open "kv.ktx" Samples.kv_past_end_file = Err TruncatedMipData.
Proof.
  split; [vm_compute; reflexivity|].
  apply (key_value_past_end "kv.ktx" Samples.kv_past_end_file
           FORMAT_BC1_RGB_UNORM_BLOCK).
  - vm_compute. discriminate.
  - vm_compute. reflexivity.
  - vm_compute. reflexivity.
  - vm_compute. discriminate.
  - vm_compute. discriminate.
  - vm_compute. reflexivity.
Defined.

(** ** The shape of a decoded texture *)

(** X16.  Every texture the constructor returns has one array element and
    one face, height, depth and mip count of at least 1, and a first
    record that is the base level: offset 0 and the texture's own width
    and height. *)
Theorem texture_shape fname h src t :
  KTXFile_init fname h src = Ok t →
  array_element t = 1 ∧ faces t = 1 ∧
  1 ≤ height t ∧ 1 ≤ depth t ∧ 1 ≤ mips_level t ∧
  ∃ m0, mipmaps t !! 0%nat = Some m0 ∧ Mip.offset m0 = 0 ∧
        Mip.width m0 = width t ∧ Mip.height m0 = height t.
Proof.
  intros Ht.
  pose proof (mip_offsets_contiguous _ _ _ _ Ht) as Hoff.
  apply KTXFile_init_Ok_inv in Ht as (fmt & s & _ & Ha & Hf & Hs & ->).
  simpl in *. do 5 (split; [lia|]).
  pose proof (load_mips_length _ _ _ _ Hs) as Hlen. simpl in Hlen.
  destruct (lookup_lt_is_Some_2 (self_mipmaps s) 0%nat) as [m0 H0]; [lia|].
  exists m0. split; [done|]. split; [by rewrite (Hoff _ _ H0)|].
  apply (load_mips_halved _ _ _ _ _ _ (loop_entry_halved _ _)) in Hs.
  destruct Hs as (_ & _ & Hrec). apply Hrec in H0 as [-> ->].
  simpl. by rewrite !Z.div_1_r.
Qed.

Lemma texture_shape_witness :
  KTXFile_init "w0.ktx" (bytes_to_cstruct Fixtures.zero_width_file)
    (slice_from Fixtures.zero_width_file 64)
    = Ok (Fixtures.zero_width_texture "w0.ktx") ∧
  array_element (Fixtures.zero_width_texture "w0.ktx") = 1 ∧
  faces (Fixtures.zero_width_texture "w0.ktx") = 1.
Proof.
  split; [vm_compute; reflexivity|].
  destruct (texture_shape "w0.ktx" (bytes_to_cstruct Fixtures.zero_width_file)
              (slice_from Fixtures.zero_width_file 64)
              (Fixtures.zero_width_texture "w0.ktx")) as (Ha & Hf & _).
  - vm_compute. reflexivity.
  - split; [exact Ha | exact Hf].
Defined.

(** X17.  With a non-negative base width, the width recorded for level
    [i] is 0 exactly when the base width is below [2^i], and at least 1
    otherwise; the same holds for the height against the clamped base
    height.  Levels beyond the base-2 logarithm of an extent are recorded
    with that extent at 0. *)
Theorem mip_extent_zero fname h src t (i : nat) m :
  KTXFile_init fname h src = Ok t →
  mipmaps t !! i = Some m →
  0 ≤ width t →
  (Mip.width m = 0 ↔ width t < 2 ^ Z.of_nat i) ∧
  (Mip.height m = 0 ↔ height t < 2 ^ Z.of_nat i).
Proof.
  intros Ht Hi Hw.
  apply KTXFile_init_Ok_inv in Ht as (fmt & s & _ & _ & _ & Hs & ->).
  simpl in *.
  apply (load_mips_halved _ _ _ _ _ _ (loop_entry_halved _ _)) in Hs.
  destruct Hs as (_ & _ & Hrec). apply Hrec in Hi as [-> ->].
  assert (0 < 2 ^ Z.of_nat i) as Hpos by (apply Z.pow_pos_nonneg; lia).
  assert (∀ a, 0 ≤ a → a / 2 ^ Z.of_nat i = 0 ↔ a < 2 ^ Z.of_nat i) as Hdiv.
  { intros a Ha. split.
    - intros Hz. destruct (Z.lt_ge_cases a (2 ^ Z.of_nat i)); [done|].
      pose proof (Z.div_str_pos a (2 ^ Z.of_nat i)). lia.
    - intros Hlt. apply Z.div_small. lia. }
  split; apply Hdiv; lia.
Qed.

Lemma mip_extent_zero_witness :
  KTXFile_init "tiny.ktx" (bytes_to_cstruct Fixtures.tiny_three_levels)
    (slice_from Fixtures.tiny_three_levels 64)
    = Ok (Fixtures.tiny_texture "tiny.ktx") ∧
  (Mip.width Fixtures.tiny_level1 = 0
   ↔ width (Fixtures.tiny_texture "tiny.ktx") < 2 ^ Z.of_nat 1).
Proof.
  split; [vm_compute; reflexivity|].
  apply (mip_extent_zero "tiny.ktx" (bytes_to_cstruct Fixtures.tiny_three_levels)
           (slice_from Fixtures.tiny_three_levels 64)
           (Fixtures.tiny_texture "tiny.ktx") 1%nat Fixtures.tiny_level1).
  - vm_compute. reflexivity.
  - reflexivity.
  - simpl. lia.
Defined.

(** * Properties of the compute runner *)

Module RunnerProps.
Import ComputeRunner.

Section Facts.
Context {Command World : Type}.
Variable effect : Call Command → M Command World unit.

Implicit Types st : St Command World.

(** ** Computations that keep the runner usable *)

Lemma keeps_refl st : keeps st st.
Proof. by split. Qed.

Lemma keeps_trans st1 st2 st3 : keeps st1 st2 → keeps st2 st3 → keeps st1 st3.
Proof. intros [He1 Hr1] [He2 Hr2]. split; [congruence | set_solver]. Qed.

Lemma bind_keeps {A B} (m : M Command World A) (f : A → M Command World B) st :
  keeps st (m st).1 → (∀ a st1, keeps st1 (f a st1).1) →
  keeps st (bind m f st).1.
Proof.
  intros Hm Hf. unfold bind. destruct (m st) as [st1 [a|e]]; simpl in *.
  - eapply keeps_trans; [exact Hm | apply Hf].
  - done.
Qed.

Lemma perform_keeps c (f : M Command World unit) st :
  keeps st (f st).1 → keeps st (perform c f st).1.
Proof. unfold perform. by destruct (f st) as [st1 [a|e]]. Qed.

Lemma running_add_keeps o st : keeps st (running_add o st).1.
Proof. split; simpl; [done | set_solver]. Qed.

Lemma run_keeps ds dc group sync after before callback st :
  (∀ c s, keeps s (effect c s).1) → (∀ s, keeps s (callback s).1) →
  keeps st (run effect ds dc group sync after before callback st).1.
Proof.
  intros Heff Hcb. unfold run, mbind, M_bind.
  apply bind_keeps; [apply keeps_refl|]. intros [] st1; [apply keeps_refl|].
  apply bind_keeps.
  { unfold ctx. destruct (engine st1); apply keeps_refl. }
  intros e st2. apply bind_keeps.
  { unfold subscript. destruct (compute_commands _ _); apply keeps_refl. }
  intros cmd st3. apply bind_keeps.
  { unfold subscript. destruct (compute_pipelines _ _); apply keeps_refl. }
  intros pl st4. apply bind_keeps.
  { unfold unpack3. destruct group as [|x [|y [|z [|]]]]; apply keeps_refl. }
  intros [[x y] z] st5.
  repeat (apply bind_keeps;
          [first [apply perform_keeps, Heff | apply running_add_keeps]
          | intros _ ?]).
  apply perform_keeps, Hcb.
Qed.

Lemma run_all_keeps runs st :
  (∀ c s, keeps s (effect c s).1) →
  Forall (λ a, ∀ s, keeps s (arg_callback a s).1) runs →
  keeps st (run_all effect runs st).
Proof.
  intros Heff Hall. revert st.
  induction Hall as [|a runs Ha _ IH]; intros st; simpl.
  - apply keeps_refl.
  - eapply keeps_trans; [|apply IH]. by apply run_keeps.
Qed.

Lemma do_steps_keeps (steps : list (Call Command * M Command World unit)) st :
  Forall (λ p, ∀ s, keeps s (p.2 s).1) steps →
  keeps st (do_steps steps st).1.
Proof.
  intros Hall. revert st.
  induction Hall as [|[c f] steps Hf _ IH]; intros st; simpl.
  - apply keeps_refl.
  - apply bind_keeps; [apply perform_keeps, Hf | intros _ ?; apply IH].
Qed.

(** ** The guard and the lookups *)

Lemma run_guard ds dc group sync after before callback st :
  oid dc ∈ running st →
  run effect ds dc group sync after before callback st
  = (st, Raised RuntimeError).
Proof.
  intros Hin. unfold run, mbind, M_bind, bind, is_running.
  by rewrite bool_decide_eq_true_2.
Qed.

(** Past the guard, either a lookup or the unpacking fails, with the
    runner as it was, or the run reaches the collaborator calls. *)
Lemma run_header ds dc group sync after before callback st :
  oid dc ∉ running st →
  (∃ e, e ∈ [AttributeError; LookupError; ValueError] ∧
        run effect ds dc group sync after before callback st = (st, Raised e))
  ∨ ∃ e cmd pl x y z,
      engine st = Some e ∧
      compute_commands ds (command_index dc) = Some cmd ∧
      compute_pipelines ds (pipeline dc) = Some pl ∧
      group = [x; y; z].
Proof.
  intros Hnot.
  destruct (engine st) as [e|] eqn:He.
  2:{ left. exists AttributeError. split; [set_solver|].
      unfold run, mbind, M_bind, bind, is_running, ctx.
      by rewrite bool_decide_eq_false_2, He by done. }
  destruct (compute_commands ds (command_index dc)) as [cmd|] eqn:Hcmd.
  2:{ left. exists LookupError. split; [set_solver|].
      unfold run, mbind, M_bind, bind, is_running, ctx, subscript.
      by rewrite bool_decide_eq_false_2, He, Hcmd by done. }
  destruct (compute_pipelines ds (pipeline dc)) as [pl|] eqn:Hpl.
  2:{ left. exists LookupError. split; [set_solver|].
      unfold run, mbind, M_bind, bind, is_running, ctx, subscript.
      by rewrite bool_decide_eq_false_2, He, Hcmd, Hpl by done. }
  assert ((∃ x y z, group = [x; y; z]) ∨
          unpack3 Command World group = raise ValueError)
    as [(x & y & z & ->)|Hg].
  { destruct group as [|x [|y [|z [|]]]]; eauto. }
  2:{ left. exists ValueError. split; [set_solver|].
      unfold run, mbind, M_bind, bind, is_running, ctx, subscript.
      rewrite bool_decide_eq_false_2, He, Hcmd, Hpl, Hg by done. done. }
  right. by exists e, cmd, pl, x, y, z.
Qed.

(** Past the guard and the lookups, a run is the eight recording calls,
    the addition to the running set, and the three closing calls. *)
Lemma run_unfold ds dc sync after before callback st e cmd pl x y z :
  oid dc ∉ running st → engine st = Some e →
  compute_commands ds (command_index dc) = Some cmd →
  compute_pipelines ds (pipeline dc) = Some pl →
  run effect ds dc [x; y; z] sync after before callback st =
  bind (do_steps
          (with_effect effect (recording_calls dc e cmd pl x y z before after)))
    (λ _, bind (running_add (oid dc))
       (λ _, do_steps (closing_steps effect before after callback)))
    st.
Proof.
  intros Hnot He Hcmd Hpl.
  unfold run, mbind, M_bind, is_running, ctx, subscript, unpack3.
  unfold bind at 1. rewrite bool_decide_eq_false_2 by done.
  unfold bind at 1. rewrite He.
  rewrite Hcmd, Hpl.
  unfold with_effect, recording_calls, closing_steps, call. simpl.
  unfold bind, perform, running_add, ret. simpl.
  repeat (destruct (effect _ _) as [? [[]|?]]; simpl; [|reflexivity]).
  destruct (callback _) as [? [[]|?]]; reflexivity.
Qed.

(** ** Calls in a row *)

Lemma after_calls_nil st : after_calls st [] st.
Proof. unfold after_calls. by rewrite app_nil_r. Qed.

Lemma after_calls_step st c cs st1 st2 st' :
  untouched st st1 → st2 = log c st1 → after_calls st2 cs st' →
  after_calls st (c :: cs) st'.
Proof.
  intros (He & Hr & Ht) -> (He' & Hr' & Ht'). unfold after_calls.
  simpl in *. rewrite He', Hr', Ht', He, Hr, Ht, <- app_assoc. done.
Qed.

(** Bodies that leave the runner alone: all return and the calls are in
    the trace, or the first that raises stops the row. *)
Lemma do_steps_cases (steps : list (Call Command * M Command World unit)) st :
  Forall (λ p, ∀ s, untouched s (p.2 s).1) steps →
  ((do_steps steps st).2 = Returned tt ∧
   after_calls st steps.*1 (do_steps steps st).1)
  ∨ ∃ (k : nat) e, (k < length steps)%nat ∧
      (do_steps steps st).2 = Raised e ∧
      after_calls st (take k steps.*1) (do_steps steps st).1.
Proof.
  intros Hall. revert st.
  induction Hall as [|[c f] steps Hf _ IH]; intros st.
  - left. split; [done | apply after_calls_nil].
  - cbn [do_steps]. unfold bind, perform. specialize (Hf st). simpl in Hf.
    destruct (f st) as [st1 [[]|e]]; simpl in Hf.
    + destruct (IH (log c st1)) as [[Hr Ha] | (k & e & Hk & Hr & Ha)].
      * left. split; [done|]. by eapply after_calls_step.
      * right. exists (S k), e. split; [simpl; lia|]. split; [done|].
        by eapply after_calls_step.
    + right. exists 0%nat, e. split; [simpl; lia|]. split; [done|].
      simpl. destruct Hf as (He & Hr & Ht). unfold after_calls.
      by rewrite app_nil_r.
Qed.

(** Bodies that never raise [e]: neither does the row. *)
Lemma do_steps_avoids (steps : list (Call Command * M Command World unit)) e st :
  Forall (λ p, ∀ s, (p.2 s).2 ≠ Raised e) steps →
  (do_steps steps st).2 ≠ Raised e.
Proof.
  intros Hall. revert st.
  induction Hall as [|[c f] steps Hf _ IH]; intros st; [done|].
  cbn [do_steps]. unfold bind, perform. specialize (Hf st). simpl in Hf.
  destruct (f st) as [st1 [[]|e']]; simpl in *; [apply IH | done].
Qed.

Lemma with_effect_fst cs : (with_effect effect cs).*1 = cs.
Proof.
  unfold with_effect.
  induction cs as [|c cs IH]; simpl; [done | f_equal; exact IH].
Qed.

Lemma closing_steps_fst before after callback :
  (closing_steps effect before after callback).*1 = closing_calls before after.
Proof. reflexivity. Qed.

Lemma with_effect_Forall (P : M Command World unit → Prop) cs :
  (∀ c, P (effect c)) → Forall (λ p, P p.2) (with_effect effect cs).
Proof.
  intros HP. unfold with_effect. apply Forall_fmap, Forall_forall.
  intros c _. apply HP.
Qed.

Lemma closing_steps_Forall (P : M Command World unit → Prop)
    before after callback :
  (∀ c, P (effect c)) → P callback →
  Forall (λ p, P p.2) (closing_steps effect before after callback).
Proof. intros HP Hcb. unfold closing_steps. repeat constructor; simpl; auto. Qed.

(** Every way a run can end when the compute object is not yet running
    and the collaborators leave the runner alone. *)
Lemma run_cases ds dc group sync after before callback st :
  (∀ c s, untouched s (effect c s).1) → (∀ s, untouched s (callback s).1) →
  oid dc ∉ running st →
  (∃ e, e ∈ [AttributeError; LookupError; ValueError] ∧
        run effect ds dc group sync after before callback st = (st, Raised e))
  ∨ ∃ e cmd pl x y z,
      engine st = Some e ∧
      compute_commands ds (command_index dc) = Some cmd ∧
      compute_pipelines ds (pipeline dc) = Some pl ∧
      group = [x; y; z] ∧
      ∃ st' out,
        run effect ds dc group sync after before callback st = (st', out) ∧
        ( (∃ (k : nat) exn, (k < 8)%nat ∧ out = Raised exn ∧
             after_calls st
               (take k (recording_calls dc e cmd pl x y z before after)) st')
        ∨ (∃ (k : nat) exn, (k < 3)%nat ∧ out = Raised exn ∧
             after_calls (mark (oid dc) st)
               (recording_calls dc e cmd pl x y z before after ++
                take k (closing_calls before after)) st')
        ∨ (out = Returned tt ∧
           after_calls (mark (oid dc) st)
             (recording_calls dc e cmd pl x y z before after ++
              closing_calls before after) st') ).
Proof.
  intros Heff Hcb Hnot.
  destruct (run_header ds dc group sync after before callback st Hnot)
    as [Hfail | (e & cmd & pl & x & y & z & He & Hcmd & Hpl & ->)];
    [by left|].
  right. exists e, cmd, pl, x, y, z. do 4 (split; [done|]).
  rewrite (run_unfold _ _ _ _ _ _ _ e cmd pl) by done.
  set (rec := recording_calls dc e cmd pl x y z before after).
  unfold bind at 1.
  destruct (do_steps_cases (with_effect effect rec) st) as
    [[Hr Ha] | (k & exn & Hk & Hr & Ha)].
  { apply (with_effect_Forall (λ f, ∀ s, untouched s (f s).1)), Heff. }
  2:{ rewrite with_effect_fst in Ha.
      unfold with_effect in Hk. rewrite length_fmap in Hk.
      unfold rec in Hk. simpl in Hk.
      destruct (do_steps (with_effect effect rec) st) as [st1 out1].
      cbn [fst snd] in Hr, Ha. subst out1.
      exists st1, (Raised exn). split; [done|].
      left. exists k, exn. split; [lia|]. split; [done | exact Ha]. }
  rewrite with_effect_fst in Ha.
  destruct (do_steps (with_effect effect rec) st) as [st1 out1].
  cbn [fst snd] in Hr, Ha. subst out1.
  unfold bind at 1, running_add.
  assert (after_calls (mark (oid dc) st) rec (mark (oid dc) st1)) as Ha1.
  { destruct Ha as (Hae & Har & Hat). unfold after_calls, mark. simpl.
    by rewrite Hae, Har, Hat. }
  destruct (do_steps_cases (closing_steps effect before after callback)
              (mark (oid dc) st1)) as [[Hr Hc] | (k & exn & Hk & Hr & Hc)].
  { apply (closing_steps_Forall (λ f, ∀ s, untouched s (f s).1)); auto. }
  - rewrite closing_steps_fst in Hc.
    destruct (do_steps _ (mark (oid dc) st1)) as [st2 out2].
    cbn [fst snd] in Hr, Hc. subst out2.
    exists st2, (Returned tt). split; [done|].
    right. right. split; [done|].
    destruct Ha1 as (E1 & R1 & T1). destruct Hc as (E2 & R2 & T2).
    unfold after_calls. rewrite E2, R2, T2, E1, R1, T1.
    by rewrite <- app_assoc.
  - rewrite closing_steps_fst in Hc. simpl in Hk.
    destruct (do_steps _ (mark (oid dc) st1)) as [st2 out2].
    cbn [fst snd] in Hr, Hc. subst out2.
    exists st2, (Raised exn). split; [done|].
    right. left. exists k, exn. do 2 (split; [done|]).
    destruct Ha1 as (E1 & R1 & T1). destruct Hc as (E2 & R2 & T2).
    unfold after_calls. rewrite E2, R2, T2, E1, R1, T1.
    by rewrite <- app_assoc.
Qed.

Lemma bind_avoids {A B} (m : M Command World A) (f : A → M Command World B)
    e st :
  (m st).2 ≠ Raised e → (∀ a s, (f a s).2 ≠ Raised e) →
  (bind m f st).2 ≠ Raised e.
Proof.
  intros Hm Hf. unfold bind. destruct (m st) as [st1 [a|e']]; simpl in *;
    [apply Hf|]. intros [= ->]. by destruct Hm.
Qed.

Lemma bind_Returned_inv {A B} (m : M Command World A)
    (f : A → M Command World B) st st' b :
  bind m f st = (st', Returned b) →
  ∃ st1 a, m st = (st1, Returned a) ∧ f a st1 = (st', Returned b).
Proof.
  unfold bind. destruct (m st) as [st1 [a|e]]; [|discriminate].
  intros H. by exists st1, a.
Qed.

(** X18.  A run of an object that is already in [self.running] raises
    [RuntimeError] at once: no lookup is made, no collaborator is called
    and the runner is as it was.  Conversely, when no collaborator and no
    callback raises [RuntimeError] itself, a [RuntimeError] from [run]
    means that the object was already running. *)
Theorem run_runtime_error_iff ds dc group sync after before callback st :
  (oid dc ∈ running st →
   run effect ds dc group sync after before callback st
   = (st, Raised RuntimeError)) ∧
  ((∀ c s, (effect c s).2 ≠ Raised RuntimeError) →
   (∀ s, (callback s).2 ≠ Raised RuntimeError) →
   (run effect ds dc group sync after before callback st).2
     = Raised RuntimeError →
   oid dc ∈ running st).
Proof.
  split; [apply run_guard|]. intros Heff Hcb Hr.
  destruct (decide (oid dc ∈ running st)) as [|Hnot]; [done|]. exfalso.
  destruct (run_header ds dc group sync after before callback st Hnot)
    as [(e & He & Hrun) | (e & cmd & pl & x & y & z & He & Hcmd & Hpl & ->)].
  - rewrite Hrun in Hr. injection Hr as ->.
    rewrite !elem_of_cons, elem_of_nil in He.
    destruct He as [He|[He|[He|[]]]]; discriminate.
  - rewrite (run_unfold _ _ _ _ _ _ _ e cmd pl) in Hr by done.
    revert Hr. apply bind_avoids.
    { apply do_steps_avoids.
      apply (with_effect_Forall (λ f, ∀ s, (f s).2 ≠ Raised RuntimeError)),
        Heff. }
    intros _ s1. apply bind_avoids; [done|]. intros _ s2.
    apply do_steps_avoids.
    apply (closing_steps_Forall (λ f, ∀ s, (f s).2 ≠ Raised RuntimeError));
      auto.
Qed.

(** X19.  When no collaborator and no callback replaces the engine or
    removes from [self.running], no sequence of runs does, however each
    run ends: the class itself never removes an object from the set. *)
Theorem running_only_grows runs st :
  (∀ c s, keeps s (effect c s).1) →
  Forall (λ a, ∀ s, keeps s (arg_callback a s).1) runs →
  engine (run_all effect runs st) = engine st ∧
  (running st ⊆ running (run_all effect runs st)).
Proof.
  intros Heff Hall. change (keeps st (run_all effect runs st)). revert st.
  induction Hall as [|a runs Ha _ IH]; intros st; simpl.
  - apply keeps_refl.
  - eapply keeps_trans; [|apply IH]. by apply run_keeps.
Qed.

(** X20.  When the collaborators and the callback leave the runner alone,
    a run that returns started from an object that was not running, an
    engine, two successful lookups and a group of three; it leaves the
    engine in place, has added the object to [self.running] and nothing
    else, and has made its eleven calls in the order of the source:
    the eight recording calls, then [run_app] for [before] and for
    [after], then the callback, with [None] read as the empty tuple. *)
Theorem run_returns_post ds dc group sync after before callback st st' :
  (∀ c s, untouched s (effect c s).1) → (∀ s, untouched s (callback s).1) →
  run effect ds dc group sync after before callback st = (st', Returned tt) →
  (oid dc ∉ running st) ∧
  ∃ e cmd pl x y z,
    engine st = Some e ∧
    compute_commands ds (command_index dc) = Some cmd ∧
    compute_pipelines ds (pipeline dc) = Some pl ∧
    group = [x; y; z] ∧
    engine st' = engine st ∧
    running st' = {[ oid dc ]} ∪ running st ∧
    trace st' = trace st ++ recording_calls dc e cmd pl x y z before after
                         ++ closing_calls before after.
Proof.
  intros Heff Hcb Hrun.
  destruct (decide (oid dc ∈ running st)) as [Hin|Hnot].
  { by rewrite run_guard in Hrun. }
  split; [done|].
  destruct (run_cases ds dc group sync after before callback st Heff Hcb Hnot)
    as [(e & He & Hr)
       | (e & cmd & pl & x & y & z & Heng & Hcmd & Hpl & Hg & st2 & out & Hr &
          [(k & exn & _ & -> & _) | [(k & exn & _ & -> & _) | [-> Ha]]])];
    rewrite Hr in Hrun; try discriminate.
  injection Hrun as <-. exists e, cmd, pl, x, y, z.
  destruct Ha as (E & R & T). simpl in E, R, T. by repeat split.
Qed.

(** X21.  When no collaborator and no callback removes from
    [self.running], a compute object whose run returned can never be run
    again through the same runner: after any further runs, a run of the
    same object raises [RuntimeError] and does nothing, whatever its
    other arguments and its callback are. *)
Theorem run_never_twice a others a' st st1 :
  (∀ c s, keeps s (effect c s).1) →
  (∀ s, keeps s (arg_callback a s).1) →
  Forall (λ b, ∀ s, keeps s (arg_callback b s).1) others →
  run_with effect a st = (st1, Returned tt) →
  oid (arg_compute a') = oid (arg_compute a) →
  run_with effect a' (run_all effect others st1)
  = (run_all effect others st1, Raised RuntimeError).
Proof.
  intros Heff Hcb Hothers Hrun Hsame. unfold run_with in *.
  assert (oid (arg_compute a) ∈ running st1) as Hin.
  { destruct (decide (oid (arg_compute a) ∈ running st)) as [Hin|Hnot].
    { by rewrite run_guard in Hrun. }
    destruct (run_header (arg_scene a) (arg_compute a) (arg_group a)
                (arg_sync a) (arg_after a) (arg_before a) (arg_callback a)
                st Hnot)
      as [(e & _ & Hr) | (e & cmd & pl & x & y & z & He & Hcmd & Hpl & Hg)].
    { rewrite Hr in Hrun. discriminate. }
    rewrite Hg, (run_unfold _ _ _ _ _ _ _ e cmd pl) in Hrun by done.
    apply bind_Returned_inv in Hrun as (s1 & [] & _ & Hrun).
    apply bind_Returned_inv in Hrun as (s2 & [] & Hadd & Hrun).
    injection Hadd as <-.
    pose proof (do_steps_keeps
                  (closing_steps effect (arg_before a) (arg_after a)
                     (arg_callback a)) (mark (oid (arg_compute a)) s1)) as Hk.
    rewrite Hrun in Hk. destruct Hk as [_ Hsub].
    { apply (closing_steps_Forall (λ f, ∀ s, keeps s (f s).1)); auto. }
    apply Hsub. simpl. set_solver. }
  apply run_guard. rewrite Hsame.
  destruct (run_all_keeps others st1 Heff Hothers) as [_ Hsub]. by apply Hsub.
Qed.

(** X22.  After [free] the runner is unusable: every run raises, either
    [RuntimeError] for an object already running or [AttributeError] for
    the deleted engine, before any collaborator is called and with the
    runner as it was; a second [free] raises [AttributeError]. *)
Theorem run_after_free ds dc group sync after before callback st st0 :
  free st = (st0, Returned tt) →
  (run effect ds dc group sync after before callback st0).1 = st0 ∧
  ((run effect ds dc group sync after before callback st0).2
     = Raised RuntimeError ∨
   (run effect ds dc group sync after before callback st0).2
     = Raised AttributeError) ∧
  free st0 = (st0, Raised AttributeError).
Proof.
  unfold free. destruct (engine st) eqn:He; [|discriminate].
  intros [= <-]. simpl.
  unfold run, mbind, M_bind, bind, is_running, ctx. simpl.
  case_bool_decide; simpl; auto.
Qed.

(** X23.  When the collaborators and the callback leave the runner alone
    and a run of an object that was not running raises, the object ends
    up in [self.running] exactly when the eight recording calls had
    returned: an exception in [run_app] or in the callback leaves the
    object marked as running, an earlier one does not. *)
Theorem failed_run_marking ds dc group sync after before callback st st' e :
  (∀ c s, untouched s (effect c s).1) → (∀ s, untouched s (callback s).1) →
  run effect ds dc group sync after before callback st = (st', Raised e) →
  oid dc ∉ running st →
  (oid dc ∈ running st' ↔ (length (trace st) + 8 ≤ length (trace st'))%nat).
Proof.
  intros Heff Hcb Hrun Hnot.
  destruct (run_cases ds dc group sync after before callback st Heff Hcb Hnot)
    as [(e' & He & Hr)
       | (e' & cmd & pl & x & y & z & _ & _ & _ & _ & st2 & out & Hr &
          [(k & exn & Hk & -> & Ha) | [(k & exn & Hk & -> & Ha) | [-> Ha]]])];
    rewrite Hr in Hrun; try discriminate; injection Hrun as <- <-.
  - split; [done | lia].
  - destruct Ha as (_ & R & T). rewrite R, T, length_app, length_take.
    simpl. split; [done | lia].
  - destruct Ha as (_ & R & T). simpl in R, T.
    rewrite R, T, !length_app. simpl. split; [lia|].
    intros _. apply elem_of_union_l. by apply elem_of_singleton.
Qed.

End Facts.

(** ** Sample runs *)

Lemma quiet_untouched c (s : St nat unit) : untouched s (quiet c s).1.
Proof. by repeat split. Qed.

Lemma quiet_keeps c (s : St nat unit) : keeps s (quiet c s).1.
Proof. by split. Qed.

(** A callback that is the runner's own [free] returns and leaves the
    runner without engine; a callback that discards the object leaves it
    out of the running set, and it can be run again; a collaborator that
    raises [RuntimeError] makes [run] raise it for an object that was not
    running.  The hypotheses on the collaborators above are needed. *)
Example callback_can_free :
  (run_with quiet (sample_args callback_frees) fresh_runner).2 = Returned tt ∧
  engine (run_with quiet (sample_args callback_frees) fresh_runner).1 = None.
Proof. vm_compute. split; reflexivity. Qed.

Example callback_can_discard :
  (run_with quiet (sample_args callback_discards)
     (run_with quiet (sample_args callback_discards) fresh_runner).1).2
  = Returned tt.
Proof. vm_compute. reflexivity. Qed.

Example collaborator_can_raise_runtime_error :
  (7%nat ∉ running fresh_runner) ∧
  (run_with dispatch_fails (sample_args callback_returns) fresh_runner).2
  = Raised RuntimeError.
Proof. split; [apply not_elem_of_empty | vm_compute; reflexivity]. Qed.

Lemma run_runtime_error_iff_witness :
  run quiet sample_scene sample_compute [8; 8; 1] true None (Some [5%nat])
    callback_returns after_sample_run
  = (after_sample_run, Raised RuntimeError).
Proof.
  apply (proj1 (run_runtime_error_iff quiet sample_scene sample_compute
                  [8; 8; 1] true None (Some [5%nat]) callback_returns
                  after_sample_run)).
  unfold after_sample_run. simpl. by apply elem_of_singleton.
Defined.

Lemma running_only_grows_witness :
  engine (run_all quiet [sample_args callback_returns;
                         sample_args callback_raises] fresh_runner)
  = engine fresh_runner ∧
  (running fresh_runner
   ⊆ running (run_all quiet [sample_args callback_returns;
                             sample_args callback_raises] fresh_runner)).
Proof.
  apply (running_only_grows quiet
           [sample_args callback_returns; sample_args callback_raises]
           fresh_runner).
  - intros c s. by split.
  - apply Forall_cons. split; [intros s; by split|].
    apply Forall_cons. split; [intros s; by split | constructor].
Defined.

Lemma run_returns_post_witness :
  run_with quiet (sample_args callback_returns) fresh_runner
    = (after_sample_run, Returned tt) ∧
  running after_sample_run = {[ 7%nat ]} ∪ running fresh_runner ∧
  trace after_sample_run
  = trace fresh_runner ++
    recording_calls sample_compute sample_engine 100 200 8 8 1
      (Some [5%nat]) None ++
    closing_calls (Some [5%nat]) None.
Proof.
  split; [vm_compute; reflexivity|].
  destruct (run_returns_post quiet sample_scene sample_compute [8; 8; 1]
              true None (Some [5%nat]) callback_returns
              fresh_runner after_sample_run)
    as (_ & e & cmd & pl & x & y & z & He & Hc & Hp & Hg & _ & Hr & Ht).
  - intros c s. by repeat split.
  - intros s. by repeat split.
  - vm_compute. reflexivity.
  - injection He as <-. injection Hc as <-. injection Hp as <-.
    injection Hg as <- <- <-. split; [exact Hr | exact Ht].
Defined.

Lemma run_never_twice_witness :
  run_with quiet (sample_args callback_raises)
    (run_all quiet [sample_args callback_raises] after_sample_run)
  = (run_all quiet [sample_args callback_raises] after_sample_run,
     Raised RuntimeError).
Proof.
  apply (run_never_twice quiet (sample_args callback_returns)
           [sample_args callback_raises] (sample_args callback_raises)
           fresh_runner after_sample_run).
  - intros c s. by split.
  - intros s. by split.
  - apply Forall_cons. split; [intros s; by split | constructor].
  - vm_compute. reflexivity.
  - reflexivity.
Defined.

Lemma run_after_free_witness :
  free fresh_runner = (freed_runner, Returned tt) ∧
  (run quiet sample_scene sample_compute [8; 8; 1] true None None
     callback_returns freed_runner).1 = freed_runner.
Proof.
  split; [reflexivity|].
  apply (run_after_free quiet sample_scene sample_compute [8; 8; 1]
           true None None callback_returns fresh_runner freed_runner).
  reflexivity.
Defined.

(** With a callback that raises, the sample run fails after ten calls
    and leaves the compute object in the running set. *)
Lemma failed_run_marking_witness :
  run quiet sample_scene sample_compute [8; 8; 1] true None (Some [5%nat])
    callback_raises fresh_runner
  = (after_failed_callback, Raised (OtherError "callback")) ∧
  (7%nat ∈ running after_failed_callback
   ↔ (length (trace fresh_runner) + 8
      ≤ length (trace after_failed_callback))%nat).
Proof.
  split; [vm_compute; reflexivity|].
  apply (failed_run_marking quiet sample_scene sample_compute
           [8; 8; 1] true None (Some [5%nat]) callback_raises
           fresh_runner after_failed_callback (OtherError "callback")).
  - intros c s. by repeat split.
  - intros s. by repeat split.
  - vm_compute. reflexivity.
  - apply not_elem_of_empty.
Defined.

End RunnerProps.
